(** * Binary operators of the PyBaMM expression tree

    A shallow embedding of [pybamm/expression_tree/binary_operators.py].
    Python exceptions are values of an error monad, the numeric runtime
    (numpy / scipy.sparse) and the base node class [pybamm.Symbol] are
    interfaces, and the operator classes of the file are one closed
    variant type with the methods written as pattern matches. *)

From Stdlib Require Import ZArith.
From stdpp Require Import base option strings list gmap pretty.

Local Open Scope Z_scope.

(** ** Exceptions and the error monad *)

Inductive exn : Type :=
  | NotImplementedError
  | DomainError
  | ZeroDivisionError
  | KeyError
  | TypeError
  | ValueError
  | AttributeError.

Inductive result (A : Type) : Type :=
  | Ok (a : A)
  | Raise (e : exn).
Arguments Ok {A} a.
Arguments Raise {A} e.

#[global] Instance result_ret : MRet result := fun A a => Ok a.
#[global] Instance result_bind : MBind result :=
  fun A B k m => match m with Ok a => k a | Raise e => Raise e end.
#[global] Instance result_fmap : FMap result :=
  fun A B f m => match m with Ok a => Ok (f a) | Raise e => Raise e end.

Definition returns {A} (m : result A) : Prop := exists a, m = Ok a.

(** ** The floating-point error state of numpy

    [np.errstate(invalid="ignore")] is a context manager: the operations
    of its body run with the [invalid] category set to [ignore] and the
    other categories as they were. *)

Inductive err_handling : Type :=
  | h_ignore | h_warn | h_raise | h_call | h_print | h_log.

Record errstate : Type := {
  divide : err_handling;
  over : err_handling;
  under : err_handling;
  invalid : err_handling
}.

Definition np_errstate_invalid_ignore (es : errstate) : errstate :=
  {| divide := divide es; over := over es; under := under es;
     invalid := h_ignore |}.

(** numpy's default error state. *)
Definition default_errstate : errstate :=
  {| divide := h_warn; over := h_warn; under := h_ignore; invalid := h_warn |}.

(** ** The numeric runtime

    Evaluated operands are Python numbers, dense arrays or scipy sparse
    matrices.  The file under verification only dispatches on them, so the
    runtime is an interface; every operation runs under an error state
    and may raise. *)

Class NumericBackend : Type := {
  value : Type;
  (** [isinstance(v, numbers.Number)] *)
  isinstance_Number : value -> bool;
  (** [scipy.sparse.issparse(v)] *)
  issparse : value -> bool;
  (** [v == 0], asked of numbers only *)
  eq_zero : value -> bool;
  (** integer literals, [np.inf], unary minus on a number *)
  py_int : Z -> value;
  np_inf : value;
  py_neg : value -> value;
  (** the binary operators [+ - * / ** % @ <= <] *)
  py_add : errstate -> value -> value -> result value;
  py_sub : errstate -> value -> value -> result value;
  py_mul : errstate -> value -> value -> result value;
  py_truediv : errstate -> value -> value -> result value;
  py_pow : errstate -> value -> value -> result value;
  py_mod : errstate -> value -> value -> result value;
  py_matmul : errstate -> value -> value -> result value;
  py_le : errstate -> value -> value -> result value;
  py_lt : errstate -> value -> value -> result value;
  np_minimum : errstate -> value -> value -> result value;
  np_maximum : errstate -> value -> value -> result value;
  (** [a.multiply(b)] of a sparse matrix [a], and [csr_matrix(a)] *)
  sparse_multiply : errstate -> value -> value -> result value;
  csr_matrix : value -> result value
}.

(** ** Nodes *)

(** Domain metadata of a node: the ordered list of domain labels and the
    dictionary of auxiliary domains. *)
Record Domains : Type := {
  primary : list string;
  auxiliary : gmap string (list string)
}.

Definition no_domains : Domains := {| primary := []; auxiliary := ∅ |}.

(** The arguments of [evaluate], each optional as in the source. *)
Record eval_args `{NumericBackend} : Type := {
  t : option value;
  y : option value;
  y_dot : option value;
  inputs : option (gmap string value)
}.

(** The concrete operator classes of the file. *)
Inductive binary_class : Type :=
  | Power
  | Addition
  | Subtraction
  | Multiplication
  | MatrixMultiplication
  | Division
  | Inner
  | EqualHeaviside
  | NotEqualHeaviside
  | Modulo
  | Minimum
  | Maximum.

(** The name each class passes to [BinaryOperator.__init__]. *)
Definition name (cls : binary_class) : string :=
  match cls with
  | Power => "**"
  | Addition => "+"
  | Subtraction => "-"
  | Multiplication => "*"
  | MatrixMultiplication => "@"
  | Division => "/"
  | Inner => "inner product"
  | EqualHeaviside => "<="
  | NotEqualHeaviside => "<"
  | Modulo => "%"
  | Minimum => "minimum"
  | Maximum => "maximum"
  end.

(** Node classes defined outside the file, as far as the file tells them
    apart. *)
Inductive array_class : Type := Array_cls | Vector | Matrix_cls.
Inductive unary_class : Type :=
  | Negate
  | PrimaryBroadcast_cls
  | OtherUnary (uname : string).

Inductive Symbol `{NumericBackend} : Type :=
  | Scalar (v : value)
  | Array (cls : array_class) (entries : value) (d : Domains)
  | Leaf (lname : string) (d : Domains)
  | UnaryOperator (cls : unary_class) (d : Domains) (child : Symbol)
  | BinaryOperator (cls : binary_class) (d : Domains) (left right : Symbol).

(** What a caller may pass where a child is expected. *)
Inductive operand `{NumericBackend} : Type :=
  | Number (v : value)
  | Node (s : Symbol)
  | PyObject (type_name : string).

Section Nodes.
Context `{NumericBackend}.

Definition domains (s : Symbol) : Domains :=
  match s with
  | Scalar _ => no_domains
  | Array _ _ d | Leaf _ d | UnaryOperator _ d _ | BinaryOperator _ d _ _ => d
  end.

Definition domain (s : Symbol) : list string := primary (domains s).
Definition auxiliary_domains (s : Symbol) : gmap string (list string) :=
  auxiliary (domains s).

Definition isinstance_BinaryOperator (s : Symbol) : bool :=
  match s with BinaryOperator _ _ _ _ => true | _ => false end.

Definition isinstance_Array (s : Symbol) : bool :=
  match s with Array _ _ _ => true | _ => false end.

(** Modelled from the spec: [Symbol.copy_domains], defined outside the
    file.  Forces the domain and the auxiliary domains of a node to those
    of another node, with no check and no recomputation. *)
Definition copy_domains (out : Symbol) (d : Domains) : Symbol :=
  match out with
  | Scalar v => Scalar v
  | Array c e _ => Array c e d
  | Leaf n _ => Leaf n d
  | UnaryOperator c _ ch => UnaryOperator c d ch
  | BinaryOperator c _ l r => BinaryOperator c d l r
  end.

(** Modelled from the spec: the constructor [pybamm.Matrix(entries)],
    defined outside the file: a constant array node with no domain. *)
Definition Matrix (entries : value) : Symbol :=
  Array Matrix_cls entries no_domains.

(** Modelled from the spec: [Symbol.pre_order], defined outside the file:
    the node and every descendant, parents first. *)
Fixpoint pre_order (s : Symbol) : list Symbol :=
  s :: match s with
       | UnaryOperator _ _ c => pre_order c
       | BinaryOperator _ _ l r => pre_order l ++ pre_order r
       | _ => []
       end.

End Nodes.

(** ** The base node class and its collaborators

    [pybamm.Symbol], the broadcast constructor and the overloaded
    arithmetic of nodes live outside the file; the file only calls them. *)

Class NodeAbstraction `{NumericBackend} : Type := {
  (** [self.id], the key of the memoization map *)
  Symbol_id : Symbol -> Z;
  (** [_base_evaluate] of a leaf, and the numeric rule of a unary node *)
  _base_evaluate : string -> Domains -> eval_args -> result value;
  _unary_evaluate : unary_class -> errstate -> value -> result value;
  (** [Symbol.__str__], [Symbol.evaluates_on_edges], [Symbol.diff] *)
  Symbol__str__ : Symbol -> string;
  Symbol_evaluates_on_edges : Symbol -> string -> bool;
  (** [is_constant] of a node whose class is defined outside the file *)
  Symbol_is_constant : Symbol -> bool;
  Symbol_diff : Symbol -> Symbol -> result Symbol;
  get_children_auxiliary_domains :
    list Symbol -> result (gmap string (list string));
  PrimaryBroadcast : Symbol -> list string -> result Symbol;
  evaluates_to_constant_number : Symbol -> bool
}.

(** The overloaded operators of nodes and the function nodes, each
    returning a new node.  A number met by an operator becomes a scalar
    node first, so the operators are stated on nodes. *)
Class NodeAlgebra `{NodeAbstraction} : Type := {
  __add__ : Symbol -> Symbol -> result Symbol;
  __sub__ : Symbol -> Symbol -> result Symbol;
  __mul__ : Symbol -> Symbol -> result Symbol;
  __truediv__ : Symbol -> Symbol -> result Symbol;
  __pow__ : Symbol -> Symbol -> result Symbol;
  __matmul__ : Symbol -> Symbol -> result Symbol;
  __le__ : Symbol -> Symbol -> result Symbol;
  __lt__ : Symbol -> Symbol -> result Symbol;
  __ge__ : Symbol -> Symbol -> result Symbol;
  __gt__ : Symbol -> Symbol -> result Symbol;
  __neg__ : Symbol -> result Symbol;
  pybamm_log : operand -> result Symbol;
  pybamm_exp : operand -> result Symbol;
  pybamm_Floor : Symbol -> result Symbol
}.

Section BinaryOperator.
Context `{NodeAbstraction}.

(** *** Construction *)

(** [BinaryOperator.format] *)
Definition format (left right : operand) : result (Symbol * Symbol) :=
  (* Turn numbers into scalars *)
  let left := match left with Number v => Node (Scalar v) | _ => left end in
  let right := match right with Number v => Node (Scalar v) | _ => right end in
  (* Check both left and right are pybamm Symbols *)
  match left, right with
  | Node left_, Node right_ =>
      (* Do some broadcasting in special cases *)
      if bool_decide (domain left_ ≠ []) && bool_decide (domain right_ ≠ [])
      then
        left_ ←
          (if bool_decide (domain left_ ≠ domain right_)
              && bool_decide
                   (auxiliary_domains right_ !! "secondary"
                    = Some (domain left_))
           then PrimaryBroadcast left_ (domain right_)
           else Ok left_);
        right_ ←
          (if bool_decide (domain right_ ≠ domain left_)
              && bool_decide
                   (auxiliary_domains left_ !! "secondary"
                    = Some (domain right_))
           then PrimaryBroadcast right_ (domain left_)
           else Ok right_);
        Ok (left_, right_)
      else Ok (left_, right_)
  | _, _ => Raise NotImplementedError
  end.

(** [BinaryOperator.get_children_domains] *)
Definition get_children_domains (ldomain rdomain : list string)
  : result (list string) :=
  if bool_decide (ldomain = rdomain) then Ok ldomain
  else if bool_decide (ldomain = []) then Ok rdomain
  else if bool_decide (rdomain = []) then Ok ldomain
  else Raise DomainError.

(** [BinaryOperator.__init__], entered from the constructor of class
    [cls], which passes its own name. *)
Definition __init__ (cls : binary_class) (left right : operand)
  : result Symbol :=
  '(left_, right_) ← format left right;
  domain ← get_children_domains (domain left_) (domain right_);
  auxiliary_domains ← get_children_auxiliary_domains [left_; right_];
  Ok (BinaryOperator cls
        {| primary := domain; auxiliary := auxiliary_domains |}
        left_ right_).

(** *** Printing *)

(** [BinaryOperator.__str__], with the overriding [__str__] of
    [EqualHeaviside], [NotEqualHeaviside], [Modulo], [Minimum] and
    [Maximum]. *)
Definition left_brackets (self_name : string) (left_ : Symbol) : bool :=
  match left_ with
  | BinaryOperator lcls _ _ _ =>
      negb (bool_decide (name lcls = self_name)
            || (bool_decide (name lcls = "*") && bool_decide (self_name = "/"))
            || (bool_decide (name lcls = "+") && bool_decide (self_name = "-"))
            || bool_decide (self_name = "+"))
  | _ => false
  end.

Definition right_brackets (self_name : string) (right_ : Symbol) : bool :=
  match right_ with
  | BinaryOperator rcls _ _ _ =>
      negb ((bool_decide (self_name = "*")
             && bool_decide (name rcls ∈ ["*"; "/"]))
            || bool_decide (self_name = "+"))
  | _ => false
  end.

Fixpoint __str__ (self : Symbol) : string :=
  match self with
  | BinaryOperator cls _ left_ right_ =>
      match cls with
      | EqualHeaviside => __str__ left_ +:+ " <= " +:+ __str__ right_
      | NotEqualHeaviside => __str__ left_ +:+ " < " +:+ __str__ right_
      | Modulo => __str__ left_ +:+ " mod " +:+ __str__ right_
      | Minimum =>
          "minimum(" +:+ __str__ left_ +:+ ", " +:+ __str__ right_ +:+ ")"
      | Maximum =>
          "maximum(" +:+ __str__ left_ +:+ ", " +:+ __str__ right_ +:+ ")"
      | _ =>
          (* Possibly add brackets for clarity *)
          let left_str :=
            if left_brackets (name cls) left_
            then "(" +:+ __str__ left_ +:+ ")" else __str__ left_ in
          let right_str :=
            if right_brackets (name cls) right_
            then "(" +:+ __str__ right_ +:+ ")" else __str__ right_ in
          left_str +:+ " " +:+ name cls +:+ " " +:+ right_str
      end
  | _ => Symbol__str__ self
  end.

(** *** Copy *)

(** [_binary_new_copy]: [self.__class__(left, right)]. *)
Definition _binary_new_copy (cls : binary_class) (left right : Symbol)
  : result Symbol :=
  __init__ cls (Node left) (Node right).

(** Modelled from the spec: [new_copy] of the node classes defined outside
    the file.  A leaf is copied as it is; a unary node is rebuilt over the
    copy of its child with its class and its domains kept. *)
Definition leaf_new_copy (self : Symbol) : result Symbol := Ok self.

Definition UnaryOperator_new_copy (cls : unary_class) (d : Domains)
  (new_child : Symbol) : result Symbol :=
  Ok (UnaryOperator cls d new_child).

(** [BinaryOperator.new_copy] *)
Fixpoint new_copy (self : Symbol) : result Symbol :=
  match self with
  | BinaryOperator cls d left_ right_ =>
      (* process children *)
      new_left ← new_copy left_;
      new_right ← new_copy right_;
      (* make new symbol, ensure domain(s) remain the same *)
      out ← _binary_new_copy cls new_left new_right;
      Ok (copy_domains out d)
  | UnaryOperator cls d child =>
      new_child ← new_copy child;
      UnaryOperator_new_copy cls d new_child
  | _ => leaf_new_copy self
  end.

(** *** Constancy and edges *)

(** [BinaryOperator.is_constant].  A child of any other class answers
    with the [is_constant] of its own class, which the file only calls. *)
Fixpoint is_constant (self : Symbol) : bool :=
  match self with
  | BinaryOperator _ _ left_ right_ => is_constant left_ && is_constant right_
  | _ => Symbol_is_constant self
  end.

(** [BinaryOperator.evaluates_on_edges], overridden by [Inner]. *)
Fixpoint evaluates_on_edges (self : Symbol) (dimension : string) : bool :=
  match self with
  | BinaryOperator Inner _ _ _ => false
  | BinaryOperator _ _ left_ right_ =>
      evaluates_on_edges left_ dimension || evaluates_on_edges right_ dimension
  | _ => Symbol_evaluates_on_edges self dimension
  end.

(** *** Numeric evaluation *)

(** [_binary_evaluate] of each class, under the ambient error state. *)
Definition _binary_evaluate (cls : binary_class) (es : errstate)
  (left right : value) : result value :=
  match cls with
  | Power =>
      (* don't raise RuntimeWarning for NaNs *)
      py_pow (np_errstate_invalid_ignore es) left right
  | Addition => py_add es left right
  | Subtraction => py_sub es left right
  | Multiplication =>
      if issparse left then
        product ← sparse_multiply es left right; csr_matrix product
      else if issparse right then
        (* Hadamard product is commutative, so we can switch right and left *)
        product ← sparse_multiply es right left; csr_matrix product
      else py_mul es left right
  | MatrixMultiplication => py_matmul es left right
  | Division =>
      if issparse left then
        reciprocal ← py_truediv es (py_int 1) right;
        product ← sparse_multiply es left reciprocal;
        csr_matrix product
      else if isinstance_Number right && eq_zero right then
        (* don't raise RuntimeWarning for NaNs *)
        py_mul (np_errstate_invalid_ignore es) left np_inf
      else py_truediv es left right
  | Inner =>
      if issparse left then sparse_multiply es left right
      else if issparse right then
        (* Hadamard product is commutative, so we can switch right and left *)
        sparse_multiply es right left
      else py_mul es left right
  | EqualHeaviside =>
      (* don't raise RuntimeWarning for NaNs *)
      py_le (np_errstate_invalid_ignore es) left right
  | NotEqualHeaviside =>
      (* don't raise RuntimeWarning for NaNs *)
      py_lt (np_errstate_invalid_ignore es) left right
  | Modulo => py_mod es left right
  | Minimum => np_minimum es left right
  | Maximum => np_maximum es left right
  end.

(** [known_evals[id] = value] *)
Definition setitem (known_evals : option (gmap Z value)) (id : Z) (v : value)
  : result (option (gmap Z value)) :=
  match known_evals with
  | Some known => Ok (Some (<[id := v]> known))
  | None => Raise TypeError
  end.

(** Modelled from the spec: [Symbol.evaluate] of a leaf, defined outside
    the file.  With a memoization map the identity of the node is looked
    up first; on a miss the value is computed, stored under the identity
    and returned with the map. *)
Definition Symbol_evaluate (id : Z) (base : result value)
  (known_evals : option (gmap Z value))
  : result (value * option (gmap Z value)) :=
  match known_evals with
  | Some known =>
      match known !! id with
      | Some v => Ok (v, Some known)
      | None => v ← base; Ok (v, Some (<[id := v]> known))
      end
  | None => v ← base; Ok (v, None)
  end.

(** Modelled from the spec: [UnaryOperator.evaluate], defined outside the
    file, with the same lookup, compute and store steps around the child. *)
Definition UnaryOperator_evaluate (id : Z) (unary : value -> result value)
  (evaluate_child :
     option (gmap Z value) -> result (value * option (gmap Z value)))
  (known_evals : option (gmap Z value))
  : result (value * option (gmap Z value)) :=
  match known_evals with
  | Some known =>
      match known !! id with
      | Some v => Ok (v, Some known)
      | None =>
          '(child, known_evals) ← evaluate_child (Some known);
          v ← unary child;
          known_evals ← setitem known_evals id v;
          Ok (v, known_evals)
      end
  | None =>
      '(child, _) ← evaluate_child None;
      v ← unary child;
      Ok (v, None)
  end.

(** [BinaryOperator.evaluate].  The result is the value alone when
    [known_evals] is [None], and the value with the map otherwise. *)
Fixpoint evaluate (es : errstate) (self : Symbol) (args : eval_args)
  (known_evals : option (gmap Z value))
  : result (value * option (gmap Z value)) :=
  match self with
  | BinaryOperator cls _ left_ right_ =>
      match known_evals with
      | Some known =>
          let id := Symbol_id self in
          match known !! id with
          | Some v => Ok (v, Some known)
          | None =>
              '(left_value, known_evals) ←
                 evaluate es left_ args (Some known);
              '(right_value, known_evals) ←
                 evaluate es right_ args known_evals;
              v ← _binary_evaluate cls es left_value right_value;
              known_evals ← setitem known_evals id v;
              Ok (v, known_evals)
          end
      | None =>
          '(left_value, _) ← evaluate es left_ args None;
          '(right_value, _) ← evaluate es right_ args None;
          v ← _binary_evaluate cls es left_value right_value;
          Ok (v, None)
      end
  | UnaryOperator cls _ child =>
      UnaryOperator_evaluate (Symbol_id self) (_unary_evaluate cls es)
        (evaluate es child args) known_evals
  | Scalar v => Symbol_evaluate (Symbol_id self) (Ok v) known_evals
  | Array _ entries _ =>
      Symbol_evaluate (Symbol_id self) (Ok entries) known_evals
  | Leaf lname d =>
      Symbol_evaluate (Symbol_id self) (_base_evaluate lname d args)
        known_evals
  end.

(** [evaluate()] with every argument left at its default. *)
Definition no_args : eval_args :=
  {| t := None; y := None; y_dot := None; inputs := None |}.

End BinaryOperator.

(** ** Differentiation *)

(** The overloaded operators of nodes, lifted to the error monad so that
    the rules below read as in the source: the operands are evaluated
    left to right and the first exception wins. *)
Section Operators.
Context `{NodeAlgebra}.

Definition lift2 (op : Symbol -> Symbol -> result Symbol)
  (a b : result Symbol) : result Symbol :=
  x ← a; y ← b; op x y.

Definition lift1 (op : Symbol -> result Symbol) (a : result Symbol)
  : result Symbol :=
  x ← a; op x.

(** An integer literal met by an overloaded operator. *)
Definition lit (n : Z) : result Symbol := Ok (Scalar (py_int n)).

End Operators.

Declare Scope sym_scope.
Delimit Scope sym_scope with sym.
Notation "a + b" := (lift2 __add__ a b) : sym_scope.
Notation "a - b" := (lift2 __sub__ a b) : sym_scope.
Notation "a * b" := (lift2 __mul__ a b) : sym_scope.
Notation "a / b" := (lift2 __truediv__ a b) : sym_scope.
Notation "a ** b" := (lift2 __pow__ a b)
  (at level 30, right associativity) : sym_scope.
Notation "a @ b" := (lift2 __matmul__ a b)
  (at level 40, left associativity) : sym_scope.
Notation "a <= b" := (lift2 __le__ a b) : sym_scope.
Notation "a < b" := (lift2 __lt__ a b) : sym_scope.
Notation "a >= b" := (lift2 __ge__ a b) : sym_scope.
Notation "a > b" := (lift2 __gt__ a b) : sym_scope.
Notation "- a" := (lift1 __neg__ a) : sym_scope.
Notation "$ s" := (@Ok Symbol s) (at level 9, s at level 9) : sym_scope.

Section Differentiation.
Context `{NodeAlgebra}.
Variable es : errstate.

(** [isinstance(left, pybamm.Array) or (isinstance(left, pybamm.Negate)
    and isinstance(left.child, pybamm.Array))] *)
Definition is_array_or_negated_array (left : Symbol) : bool :=
  isinstance_Array left
  || match left with
     | UnaryOperator Negate _ child => isinstance_Array child
     | _ => false
     end.

(** [_binary_jac] of each class; [left] and [right] are [self.orphans],
    the two children of the node detached from it. *)
Definition _binary_jac (cls : binary_class) (left right : Symbol)
  (left_jac right_jac : Symbol) : result Symbol :=
  (match cls with
   | Power =>
       (* apply chain rule and power rule *)
       if evaluates_to_constant_number left
          && evaluates_to_constant_number right
       then $(Scalar (py_int 0))
       else if evaluates_to_constant_number right
       then ($right * $left ** ($right - lit 1)) * $left_jac
       else if evaluates_to_constant_number left
       then ($left ** $right * pybamm_log (Node left)) * $right_jac
       else ($left ** ($right - lit 1))
            * ($right * $left_jac
               + $left * pybamm_log (Node left) * $right_jac)
   | Addition => $left_jac + $right_jac
   | Subtraction => $left_jac - $right_jac
   | Multiplication | Inner =>
       (* apply product rule *)
       if evaluates_to_constant_number left
          && evaluates_to_constant_number right
       then $(Scalar (py_int 0))
       else if evaluates_to_constant_number left
       then $left * $right_jac
       else if evaluates_to_constant_number right
       then $right * $left_jac
       else $right * $left_jac + $left * $right_jac
   | MatrixMultiplication =>
       (* We only need the case where left is an array and right
          is a (slice of a) state vector, e.g. for discretised spatial
          operators of the form D @ u (also catch cases of (-D) @ u) *)
       if is_array_or_negated_array left then
         '(entries, _) ← evaluate es left no_args None;
         sparse ← csr_matrix entries;
         $(Matrix sparse) @ $right_jac
       else Raise NotImplementedError
   | Division =>
       (* apply quotient rule *)
       if evaluates_to_constant_number left
          && evaluates_to_constant_number right
       then $(Scalar (py_int 0))
       else if evaluates_to_constant_number left
       then - $left / $right ** lit 2 * $right_jac
       else if evaluates_to_constant_number right
       then $left_jac / $right
       else ($right * $left_jac - $left * $right_jac) / $right ** lit 2
   | EqualHeaviside | NotEqualHeaviside =>
       (* Heaviside should always be multiplied by something else so
          hopefully don't need to worry about shape *)
       $(Scalar (py_int 0))
   | Modulo =>
       (* apply chain rule and power rule *)
       if evaluates_to_constant_number left
          && evaluates_to_constant_number right
       then $(Scalar (py_int 0))
       else if evaluates_to_constant_number right
       then $left_jac
       else if evaluates_to_constant_number left
       then - $right_jac * lift1 pybamm_Floor ($left / $right)
       else $left_jac - $right_jac * lift1 pybamm_Floor ($left / $right)
   | Minimum => ($left <= $right) * $left_jac + ($left > $right) * $right_jac
   | Maximum => ($left >= $right) * $left_jac + ($left < $right) * $right_jac
   end)%sym.

(** [diff]: overridden by [MatrixMultiplication] and by [Heaviside];
    every other class inherits [Symbol.diff]. *)
Definition diff (self variable : Symbol) : result Symbol :=
  match self with
  | BinaryOperator MatrixMultiplication _ _ _ =>
      (* We shouldn't need this *)
      Raise NotImplementedError
  | BinaryOperator (EqualHeaviside | NotEqualHeaviside) _ _ _ =>
      Ok (Scalar (py_int 0))
  | _ => Symbol_diff self variable
  end.

End Differentiation.

(** ** Constant folding and the smoothing factories *)

(** [pybamm.settings.min_smoothing] and [max_smoothing]: the string
    ["exact"] or a number. *)
Inductive smoothing `{NumericBackend} : Type :=
  | exact
  | coefficient (k : value).

Record settings `{NumericBackend} : Type := {
  min_smoothing : smoothing;
  max_smoothing : smoothing
}.

Section Factories.
Context `{NodeAlgebra}.
Variable es : errstate.

(** Modelled from the spec: [pybamm.simplify_if_constant] with
    [clear_domains=False], defined outside the file.  A node with only
    constant inputs is collapsed to a single constant node holding its
    value, a scalar for a number and an array with the domains of the
    node otherwise; any other node is returned as it is. *)
Definition simplify_if_constant (symbol : Symbol) : Symbol :=
  if is_constant symbol then
    match evaluate es symbol no_args None with
    | Ok (v, _) =>
        if isinstance_Number v then Scalar v
        else Array Array_cls v (domains symbol)
    | Raise _ => symbol
    end
  else symbol.

(** Modelled from the spec: [pybamm.is_constant], defined outside the
    file: a plain number is constant, a node answers for itself. *)
Definition pybamm_is_constant (symbol : operand) : bool :=
  match symbol with
  | Number _ => true
  | Node s => is_constant s
  | PyObject _ => false
  end.

(** [k * x] for a number [k]: the product of two numbers, or the node
    built by the reflected multiplication of a node. *)
Definition times (k : value) (x : operand) : result operand :=
  match x with
  | Number v => Number <$> py_mul es k v
  | Node s => Node <$> __mul__ (Scalar k) s
  | PyObject _ => Raise TypeError
  end.

(** [softminus], for a number [k] *)
Definition softminus (left right : operand) (k : value) : result Symbol :=
  a ← times (py_neg k) left;
  exp_a ← pybamm_exp a;
  b ← times (py_neg k) right;
  exp_b ← pybamm_exp b;
  total ← __add__ exp_a exp_b;
  logarithm ← pybamm_log (Node total);
  __truediv__ logarithm (Scalar (py_neg k)).

(** [softplus], for a number [k] *)
Definition softplus (left right : operand) (k : value) : result Symbol :=
  a ← times k left;
  exp_a ← pybamm_exp a;
  b ← times k right;
  exp_b ← pybamm_exp b;
  total ← __add__ exp_a exp_b;
  logarithm ← pybamm_log (Node total);
  __truediv__ logarithm (Scalar k).

(** [minimum].  The test [k == "exact" or (...)] is the match on the
    setting: the constancy of the operands is asked only of a setting
    that is a number. *)
Definition minimum (st : settings) (left right : operand) : result Symbol :=
  let k := min_smoothing st in
  (* Return exact approximation if that is the setting or the outcome is a
     constant (i.e. no need for smoothing) *)
  out ←
    match k with
    | exact => __init__ Minimum left right
    | coefficient k =>
        if pybamm_is_constant left && pybamm_is_constant right
        then __init__ Minimum left right
        else softminus left right k
    end;
  Ok (simplify_if_constant out).

(** [maximum] *)
Definition maximum (st : settings) (left right : operand) : result Symbol :=
  let k := max_smoothing st in
  (* Return exact approximation if that is the setting or the outcome is a
     constant (i.e. no need for smoothing) *)
  out ←
    match k with
    | exact => __init__ Maximum left right
    | coefficient k =>
        if pybamm_is_constant left && pybamm_is_constant right
        then __init__ Maximum left right
        else softplus left right k
    end;
  Ok (simplify_if_constant out).

End Factories.

(** ** Derivatives with respect to a variable *)

Section Derivatives.
Context `{NodeAlgebra}.

(** The [_diff] that [MatrixMultiplication] and the Heaviside classes,
    which define none, inherit from [pybamm.Symbol]. *)
Variable Symbol__diff :
  binary_class -> Symbol -> Symbol -> Symbol -> result Symbol.

(** [any(variable.id == x.id for x in s.pre_order())] *)
Definition occurs_in (variable s : Symbol) : bool :=
  existsb (fun x => Symbol_id variable =? Symbol_id x) (pre_order s).

(** [_diff] of each class; [left] and [right] are [self.orphans] (the
    children themselves for [Addition] and [Subtraction]), and the
    derivative of a child is the [diff] of its own class. *)
Definition _diff (cls : binary_class) (left right variable : Symbol)
  : result Symbol :=
  (match cls with
   | Power =>
       (* apply chain rule and power rule *)
       let base := left in
       let exponent := right in
       (* derivative if variable is in the base *)
       d ← $exponent * ($base ** ($exponent - lit 1)) * diff base variable;
       (* derivative if variable is in the exponent (rare, check separately
          to avoid unecessarily big tree) *)
       if occurs_in variable exponent
       then $d + ($base ** $exponent) * pybamm_log (Node base)
                 * diff exponent variable
       else $d
   | Addition => diff left variable + diff right variable
   | Subtraction => diff left variable - diff right variable
   | Multiplication | Inner =>
       (* apply product rule *)
       diff left variable * $right + $left * diff right variable
   | Division =>
       (* apply quotient rule *)
       let top := left in
       let bottom := right in
       (diff top variable * $bottom - $top * diff bottom variable)
       / $bottom ** lit 2
   | Modulo =>
       (* derivative if variable is in the base *)
       d ← diff left variable;
       (* derivative if variable is in the right term (rare, check
          separately to avoid unecessarily big tree) *)
       if occurs_in variable right
       then $d + - lift1 pybamm_Floor ($left / $right) * diff right variable
       else $d
   | Minimum =>
       ($left <= $right) * diff left variable
       + ($left > $right) * diff right variable
   | Maximum =>
       ($left >= $right) * diff left variable
       + ($left < $right) * diff right variable
   | MatrixMultiplication | EqualHeaviside | NotEqualHeaviside =>
       Symbol__diff cls left right variable
   end)%sym.

End Derivatives.

(** ** The source term factory *)

Section Source.
Context `{NodeAlgebra}.

(** Collaborators of [source]: the mass matrices of a variable, and the
    broadcast of a plain number to a domain given by its name. *)
Variable Mass : Symbol -> result Symbol.
Variable BoundaryMass : Symbol -> result Symbol.
Variable broadcast_number : value -> string -> result Symbol.

(** [source].  An operand that is no node has no [domain]: reading it
    raises [AttributeError], in the test or in the text of the error. *)
Definition source (left right : operand) (boundary : bool) : result Symbol :=
  (* Broadcast if left is number *)
  left_ ←
    match left return result Symbol with
    | Number v => broadcast_number v "current collector"
    | Node s => Ok s
    | PyObject _ => Raise AttributeError
    end;
  right_ ←
    match right return result Symbol with
    | Node s => Ok s
    | _ => Raise AttributeError
    end;
  if bool_decide (domain left_ ≠ ["current collector"])
     || bool_decide (domain right_ ≠ ["current collector"])
  then Raise DomainError
  else if boundary
  then (mass ← BoundaryMass right_; $mass @ $left_)%sym
  else (mass ← Mass right_; $mass @ $left_)%sym.

End Source.

(** ** A symbolic numeric runtime

    An instance of the runtime for running the definitions above: Python
    integers are exact, arrays and sparse matrices are named, and every
    operation on them is recorded, with its error state, and not
    interpreted. *)

Inductive ufunc : Type :=
  | u_add | u_sub | u_mul | u_truediv | u_pow | u_mod | u_matmul
  | u_le | u_lt | u_minimum | u_maximum.

Inductive npvalue : Type :=
  | PyNum (z : Z)
  | NpInf
  | NdArray (aname : string)
  | SpMatrix (aname : string)
  | Negated (a : npvalue)
  | Applied (f : ufunc) (es : errstate) (a b : npvalue)
  | SpMultiply (es : errstate) (a b : npvalue)
  | Csr (a : npvalue).

Definition np_issparse (v : npvalue) : bool :=
  match v with
  | SpMatrix _ | SpMultiply _ _ _ | Csr _ => true
  | _ => false
  end.

Definition np_is_number (v : npvalue) : bool :=
  match v with PyNum _ | NpInf => true | _ => false end.

Definition np_eq_zero (v : npvalue) : bool :=
  match v with PyNum z => z =? 0 | _ => false end.

Definition np_neg (v : npvalue) : npvalue :=
  match v with PyNum z => PyNum (- z) | _ => Negated v end.

(** Integer arithmetic is Python's: exact, with [ZeroDivisionError] for a
    zero divisor; everything else is recorded. *)
Definition np_apply (f : ufunc) (es : errstate) (a b : npvalue)
  : result npvalue :=
  match a, b with
  | PyNum x, PyNum y =>
      match f with
      | u_add => Ok (PyNum (x + y))
      | u_sub => Ok (PyNum (x - y))
      | u_mul => Ok (PyNum (x * y))
      | u_truediv =>
          if y =? 0 then Raise ZeroDivisionError
          else Ok (Applied u_truediv es a b)
      | u_pow =>
          if 0 <=? y then Ok (PyNum (x ^ y))
          else if x =? 0 then Raise ZeroDivisionError
          else Ok (Applied u_pow es a b)
      | u_mod =>
          if y =? 0 then Raise ZeroDivisionError else Ok (PyNum (x `mod` y))
      | u_matmul => Raise TypeError
      | u_le => Ok (PyNum (if x <=? y then 1 else 0))
      | u_lt => Ok (PyNum (if x <? y then 1 else 0))
      | u_minimum => Ok (PyNum (x `min` y))
      | u_maximum => Ok (PyNum (x `max` y))
      end
  | _, _ => Ok (Applied f es a b)
  end.

Definition np_sparse_multiply (es : errstate) (a b : npvalue)
  : result npvalue :=
  if np_issparse a then Ok (SpMultiply es a b) else Raise AttributeError.

#[global] Instance symbolic_backend : NumericBackend := {|
  value := npvalue;
  isinstance_Number := np_is_number;
  issparse := np_issparse;
  eq_zero := np_eq_zero;
  py_int := PyNum;
  np_inf := NpInf;
  py_neg := np_neg;
  py_add := np_apply u_add;
  py_sub := np_apply u_sub;
  py_mul := np_apply u_mul;
  py_truediv := np_apply u_truediv;
  py_pow := np_apply u_pow;
  py_mod := np_apply u_mod;
  py_matmul := np_apply u_matmul;
  py_le := np_apply u_le;
  py_lt := np_apply u_lt;
  np_minimum := np_apply u_minimum;
  np_maximum := np_apply u_maximum;
  sparse_multiply := np_sparse_multiply;
  csr_matrix := fun a => Ok (Csr a)
|}.

(** ** A small instance of the node collaborators

    Enough of the base class to run the examples: variables are looked up
    by name in [inputs], the leaf named [t] is the time, and a node is
    identified by a number computed from its structure. *)

Definition pairing (a b : Z) : Z := (a + b) * (a + b + 1) / 2 + b.

Fixpoint string_code (s : string) : Z :=
  match s with
  | EmptyString => 0
  | String c rest => 1 + Z.of_N (Ascii.N_of_ascii c) + 257 * string_code rest
  end.

Definition class_code (cls : binary_class) : Z :=
  match cls with
  | Power => 0 | Addition => 1 | Subtraction => 2 | Multiplication => 3
  | MatrixMultiplication => 4 | Division => 5 | Inner => 6
  | EqualHeaviside => 7 | NotEqualHeaviside => 8 | Modulo => 9
  | Minimum => 10 | Maximum => 11
  end.

Definition unary_code (cls : unary_class) : Z :=
  match cls with
  | Negate => 0
  | PrimaryBroadcast_cls => 1
  | OtherUnary n => 2 + string_code n
  end.

Fixpoint value_code (v : npvalue) : Z :=
  match v with
  | PyNum z => 8 * Z.abs z + (if z <? 0 then 1 else 0)
  | NpInf => 2
  | NdArray n => 8 * string_code n + 3
  | SpMatrix n => 8 * string_code n + 4
  | Negated a => 8 * value_code a + 5
  | Applied _ _ a b => 8 * pairing (value_code a) (value_code b) + 6
  | SpMultiply _ a b => 8 * pairing (value_code a) (value_code b) + 7
  | Csr a => 8 * (value_code a + 1)
  end.

Fixpoint structural_id (s : Symbol) : Z :=
  match s with
  | Scalar v => 5 * value_code v
  | Array _ e _ => 5 * value_code e + 1
  | Leaf n _ => 5 * string_code n + 2
  | UnaryOperator c _ child =>
      5 * pairing (unary_code c) (structural_id child) + 3
  | BinaryOperator c _ l r =>
      5 * pairing (class_code c)
            (pairing (structural_id l) (structural_id r)) + 4
  end.

Definition lookup_input (lname : string) (d : Domains) (args : eval_args)
  : result npvalue :=
  if bool_decide (lname = "t") then
    match t args with Some v => Ok v | None => Raise NotImplementedError end
  else
    match inputs args with
    | Some given =>
        match given !! lname with Some v => Ok v | None => Raise KeyError end
    | None => Raise TypeError
    end.

Definition apply_unary (cls : unary_class) (es : errstate) (v : npvalue)
  : result npvalue :=
  match cls with
  | Negate => Ok (np_neg v)
  | PrimaryBroadcast_cls => Ok v
  | OtherUnary _ => Raise NotImplementedError
  end.

Definition plain_str (s : Symbol) : string :=
  match s with
  | Scalar (PyNum z) => pretty z
  | Scalar _ => "scalar"
  | Array _ _ _ => "Array"
  | Leaf n _ => n
  | UnaryOperator Negate _ _ => "-"
  | UnaryOperator PrimaryBroadcast_cls _ _ => "broadcast"
  | UnaryOperator (OtherUnary n) _ _ => n
  | BinaryOperator c _ _ _ => name c
  end.

(** One dictionary for both children: a level given by both must agree. *)
Fixpoint combine_auxiliary (children : list Symbol)
  (aux_domains : gmap string (list string))
  : result (gmap string (list string)) :=
  match children with
  | [] => Ok aux_domains
  | child :: rest =>
      merged ←
        foldr (fun '(level, d) acc =>
                 aux ← acc;
                 if bool_decide (d = []) then Ok aux
                 else match aux !! level with
                      | Some d' =>
                          if bool_decide (d' = d) then Ok aux
                          else Raise DomainError
                      | None => Ok (<[level := d]> aux)
                      end)
              (Ok aux_domains) (map_to_list (auxiliary_domains child));
      combine_auxiliary rest merged
  end.

Fixpoint constant_number (s : Symbol) : bool :=
  match s with
  | Scalar _ => true
  | Array _ _ _ | Leaf _ _ => false
  | UnaryOperator PrimaryBroadcast_cls _ _ => false
  | UnaryOperator _ _ child => constant_number child
  | BinaryOperator _ _ l r => constant_number l && constant_number r
  end.

(** The constant nodes of the small instance: those with no named leaf. *)
Fixpoint constant_node (s : Symbol) : bool :=
  match s with
  | Scalar _ | Array _ _ _ => true
  | Leaf _ _ => false
  | UnaryOperator _ _ child => constant_node child
  | BinaryOperator _ _ l r => constant_node l && constant_node r
  end.

#[global] Instance small_nodes : NodeAbstraction := {|
  Symbol_id := structural_id;
  _base_evaluate := lookup_input;
  _unary_evaluate := apply_unary;
  Symbol__str__ := plain_str;
  Symbol_evaluates_on_edges := fun _ _ => false;
  Symbol_is_constant := constant_node;
  Symbol_diff := fun _ _ => Raise NotImplementedError;
  get_children_auxiliary_domains := fun children => combine_auxiliary children ∅;
  PrimaryBroadcast := fun child broadcast_domain =>
    Ok (UnaryOperator PrimaryBroadcast_cls
          {| primary := broadcast_domain;
             auxiliary := {[ "secondary" := domain child ]} |} child);
  evaluates_to_constant_number := constant_number
|}.

Definition function_node (fname : string) (x : operand) : result Symbol :=
  match x with
  | Number v => Ok (UnaryOperator (OtherUnary fname) no_domains (Scalar v))
  | Node s => Ok (UnaryOperator (OtherUnary fname) (domains s) s)
  | PyObject _ => Raise TypeError
  end.

#[global] Instance small_algebra : NodeAlgebra := {|
  __add__ := fun a b => __init__ Addition (Node a) (Node b);
  __sub__ := fun a b => __init__ Subtraction (Node a) (Node b);
  __mul__ := fun a b => __init__ Multiplication (Node a) (Node b);
  __truediv__ := fun a b => __init__ Division (Node a) (Node b);
  __pow__ := fun a b => __init__ Power (Node a) (Node b);
  __matmul__ := fun a b => __init__ MatrixMultiplication (Node a) (Node b);
  __le__ := fun a b => __init__ EqualHeaviside (Node a) (Node b);
  __lt__ := fun a b => __init__ NotEqualHeaviside (Node a) (Node b);
  __ge__ := fun a b => __init__ EqualHeaviside (Node b) (Node a);
  __gt__ := fun a b => __init__ NotEqualHeaviside (Node b) (Node a);
  __neg__ := fun a => Ok (UnaryOperator Negate (domains a) a);
  pybamm_log := function_node "log";
  pybamm_exp := function_node "exp";
  pybamm_Floor := fun a => function_node "floor" (Node a)
|}.

(** ** Statements used by the theorems *)

Section Properties.
Context `{NodeAbstraction}.

(** The identities tell the nodes of a tree apart. *)
Definition ids_identify (self : Symbol) : Prop :=
  ∀ a b, a ∈ pre_order self → b ∈ pre_order self →
         Symbol_id a = Symbol_id b → a = b.

(** The value of a node, evaluated with no memoization map. *)
Definition plain (es : errstate) (args : eval_args) (n : Symbol)
  : result value :=
  fst <$> evaluate es n args None.

(** A map is sound for a set of nodes when an entry found under the
    identity of a node of the set is the value of that node. *)
Definition sound (es : errstate) (args : eval_args) (U : Symbol → Prop)
  (known : gmap Z value) : Prop :=
  ∀ a v, U a → known !! Symbol_id a = Some v → plain es args a = Ok v.

(** A memoization map of one evaluation call: an entry found under the
    identity of a node of the tree is the value of that node for the
    arguments of the call. *)
Definition memoization_map (es : errstate) (args : eval_args)
  (self : Symbol) (known : gmap Z value) : Prop :=
  sound es args (λ a, a ∈ pre_order self) known.

(** What a memoized evaluation owes to the plain one: the same value,
    stored under the identity of the node in a map that is still sound,
    or the same exception. *)
Definition agrees (es : errstate) (args : eval_args) (U : Symbol → Prop)
  (n : Symbol) (known : gmap Z value) : Prop :=
  match plain es args n with
  | Ok v =>
      ∃ known', evaluate es n args (Some known) = Ok (v, Some known')
                ∧ known' !! Symbol_id n = Some v
                ∧ sound es args U known'
  | Raise e => evaluate es n args (Some known) = Raise e
  end.

(** Every binary node of the tree holds children that its constructor
    takes as they are: no broadcast is added and no domain is refused. *)
Fixpoint constructible (self : Symbol) : Prop :=
  match self with
  | BinaryOperator cls _ left_ right_ =>
      constructible left_ ∧ constructible right_
      ∧ ∃ d, __init__ cls (Node left_) (Node right_)
             = Ok (BinaryOperator cls d left_ right_)
  | UnaryOperator _ _ child => constructible child
  | _ => True
  end.

(** The trees that the constructors make: leaves, unary nodes over such
    trees, the nodes returned by [__init__] for operands that are numbers
    or such trees, and such nodes with domains forced by [copy_domains]. *)
Inductive built : Symbol → Prop :=
  | built_scalar v : built (Scalar v)
  | built_array c e d : built (Array c e d)
  | built_leaf n d : built (Leaf n d)
  | built_unary cls d child : built child → built (UnaryOperator cls d child)
  | built_binary cls left right node :
      (∀ s, left = Node s → built s) →
      (∀ s, right = Node s → built s) →
      __init__ cls left right = Ok node → built node
  | built_copy_domains node d : built node → built (copy_domains node d).

End Properties.

(** Standard precedence and associativity of the infix operators, as the
    specification words the rule for parentheses: [**] binds tightest and
    groups to the right, then [* @ /], then [+ -], each grouping to the
    left. *)
Definition precedence (cls : binary_class) : option nat :=
  match cls with
  | Power => Some 3%nat
  | Multiplication | MatrixMultiplication | Division => Some 2%nat
  | Addition | Subtraction => Some 1%nat
  | _ => None
  end.

Definition groups_to_the_right (cls : binary_class) : bool :=
  match cls with Power => true | _ => false end.

(** Would the text parse differently with the parentheses around the
    left (right) child left out?  Unknown operators count as yes. *)
Definition omitting_changes_parse_left (parent child : binary_class) : bool :=
  match precedence parent, precedence child with
  | Some p, Some c =>
      (c <? p)%nat || ((c =? p)%nat && groups_to_the_right parent)
  | _, _ => true
  end.

Definition omitting_changes_parse_right (parent child : binary_class)
  : bool :=
  match precedence parent, precedence child with
  | Some p, Some c =>
      (c <? p)%nat || ((c =? p)%nat && negb (groups_to_the_right parent))
  | _, _ => true
  end.

(** The classes that print through [BinaryOperator.__str__]. *)
Definition prints_infix (cls : binary_class) : bool :=
  match cls with
  | EqualHeaviside | NotEqualHeaviside | Modulo | Minimum | Maximum => false
  | _ => true
  end.

#[global] Instance binary_class_eq_dec : EqDecision binary_class.
Proof. solve_decision. Defined.

(** Nodes of the examples. *)
Definition leaf_a : Symbol := Leaf "a" no_domains.
Definition leaf_b : Symbol := Leaf "b" no_domains.
Definition leaf_c : Symbol := Leaf "c" no_domains.
Definition on_domain (d : list string) : Domains :=
  {| primary := d; auxiliary := ∅ |}.
Definition with_secondary (d secondary : list string) : Domains :=
  {| primary := d; auxiliary := {[ "secondary" := secondary ]} |}.
Definition smooth_settings (k : Z) : settings :=
  {| min_smoothing := coefficient (PyNum k);
     max_smoothing := coefficient (PyNum k) |}.
Definition at_time (now : Z) (given : gmap string npvalue) : eval_args :=
  {| t := Some (PyNum now); y := None; y_dot := None; inputs := Some given |}.

(** ** Statements used by the further properties *)

Section MoreProperties.
Context `{NodeAbstraction}.

(** A map is closed for a set of nodes when, with an entry under the
    identity of a node of the set, it has one under the identity of every
    descendant of that node. *)
Definition closed (U : Symbol → Prop) (known : gmap Z value) : Prop :=
  ∀ a, U a → is_Some (known !! Symbol_id a) →
       ∀ b, b ∈ pre_order a → is_Some (known !! Symbol_id b).

Definition isinstance_MatrixMultiplication (s : Symbol) : bool :=
  match s with
  | BinaryOperator MatrixMultiplication _ _ _ => true
  | _ => false
  end.

(** The broadcast collaborator wraps the child it is given. *)
Definition broadcast_wraps : Prop :=
  ∀ child broadcast_domain out,
    PrimaryBroadcast child broadcast_domain = Ok out →
    ∃ d, out = UnaryOperator PrimaryBroadcast_cls d child.

End MoreProperties.

(** The classes whose [_binary_jac] tests its operands for constant
    numbers. *)
Definition tests_constant_operands (cls : binary_class) : bool :=
  match cls with
  | Power | Multiplication | Division | Inner | Modulo => true
  | _ => false
  end.

(** The classes whose [_diff] differentiates both children whatever the
    variable is. *)
Definition differentiates_both (cls : binary_class) : bool :=
  match cls with
  | Addition | Subtraction | Multiplication | Division | Inner
  | Minimum | Maximum => true
  | _ => false
  end.

(** The classes that define a [_diff]. *)
Definition defines_diff (cls : binary_class) : bool :=
  match cls with
  | MatrixMultiplication | EqualHeaviside | NotEqualHeaviside => false
  | _ => true
  end.

(** The nodes of the examples with one leaf, [flux], that evaluates on
    the edges of the mesh. *)
Definition edge_nodes : NodeAbstraction := {|
  Symbol_id := structural_id;
  _base_evaluate := lookup_input;
  _unary_evaluate := apply_unary;
  Symbol__str__ := plain_str;
  Symbol_evaluates_on_edges := fun s _ =>
    match s with Leaf n _ => bool_decide (n = "flux") | _ => false end;
  Symbol_is_constant := constant_node;
  Symbol_diff := fun _ _ => Raise NotImplementedError;
  get_children_auxiliary_domains := fun children => combine_auxiliary children ∅;
  PrimaryBroadcast := fun child broadcast_domain =>
    Ok (UnaryOperator PrimaryBroadcast_cls
          {| primary := broadcast_domain;
             auxiliary := {[ "secondary" := domain child ]} |} child);
  evaluates_to_constant_number := constant_number
|}.

(** Collaborators of the examples of [source] and [_diff]. *)
Definition mass_of (mname : string) (s : Symbol) : result Symbol :=
  Ok (UnaryOperator (OtherUnary mname) no_domains s).
Definition broadcast_to (v : npvalue) (dname : string) : result Symbol :=
  Ok (UnaryOperator PrimaryBroadcast_cls (on_domain [dname]) (Scalar v)).
Definition no_inherited_diff (cls : binary_class) (l r v : Symbol)
  : result Symbol :=
  Raise NotImplementedError.

(** * Theorems *)

(** ** Construction and domains *)

Section DomainTheorems.
Context {backend : NumericBackend} {nodes : NodeAbstraction}.

Lemma get_children_domains_equal (d : list string) :
  get_children_domains d d = Ok d.
Proof. unfold get_children_domains. by rewrite bool_decide_eq_true_2. Qed.

Lemma get_children_domains_left_empty (d : list string) :
  get_children_domains [] d = Ok d.
Proof.
  unfold get_children_domains.
  destruct (bool_decide_reflect ([] = d)) as [<-|]; [done|].
  by rewrite bool_decide_eq_true_2.
Qed.

Lemma get_children_domains_right_empty (d : list string) :
  get_children_domains d [] = Ok d.
Proof.
  unfold get_children_domains.
  destruct (bool_decide_reflect (d = [])) as [->|]; [done|].
  rewrite bool_decide_eq_false_2 by done.
  by rewrite bool_decide_eq_true_2.
Qed.

Lemma get_children_domains_mismatch (ld rd : list string) :
  ld ≠ [] → rd ≠ [] → ld ≠ rd →
  get_children_domains ld rd = Raise DomainError.
Proof.
  intros Hl Hr Hne. unfold get_children_domains.
  by rewrite !bool_decide_eq_false_2.
Qed.

Lemma init_after_format (cls : binary_class) (left right : operand)
  (l r : Symbol) :
  format left right = Ok (l, r) →
  __init__ cls left right =
    (d ← get_children_domains (domain l) (domain r);
     aux ← get_children_auxiliary_domains [l; r];
     Ok (BinaryOperator cls {| primary := d; auxiliary := aux |} l r)).
Proof. intros Hf. unfold __init__. by rewrite Hf. Qed.

(** C1.  With [l] and [r] the children after [format] (numbers turned into
    scalars, broadcasts added): equal domains give that domain, one empty
    domain gives the other one, and two non-empty unequal domains raise
    [DomainError] with no node built.  In the first three cases the node
    built is the one with that domain, once the auxiliary domains of the
    children are combined. *)
Theorem binary_operator_domain (cls : binary_class) (left right : operand)
  (l r : Symbol) :
  format left right = Ok (l, r) →
  let built (d : list string) : result Symbol :=
    aux ← get_children_auxiliary_domains [l; r];
    Ok (BinaryOperator cls {| primary := d; auxiliary := aux |} l r) in
  (domain l = domain r → __init__ cls left right = built (domain l))
  ∧ (domain l = [] → domain r ≠ [] →
     __init__ cls left right = built (domain r))
  ∧ (domain r = [] → domain l ≠ [] →
     __init__ cls left right = built (domain l))
  ∧ (domain l ≠ [] → domain r ≠ [] → domain l ≠ domain r →
     __init__ cls left right = Raise DomainError)
  ∧ (∀ node, __init__ cls left right = Ok node →
       Ok (domain node) = get_children_domains (domain l) (domain r)).
Proof.
  intros Hf built. rewrite (init_after_format cls _ _ _ _ Hf).
  repeat split.
  - intros ->. by rewrite get_children_domains_equal.
  - intros -> _. by rewrite get_children_domains_left_empty.
  - intros -> _. by rewrite get_children_domains_right_empty.
  - intros Hl Hr Hne. by rewrite get_children_domains_mismatch.
  - intros node. destruct (get_children_domains _ _) as [d|e]; [|done].
    simpl. destruct (get_children_auxiliary_domains _) as [aux|e]; [|done].
    simpl. by intros [= <-].
Qed.

(** C10.  For every operator class, a binary node is constant exactly when
    both of its children are. *)
Theorem binary_is_constant_iff (cls : binary_class) (d : Domains)
  (left right : Symbol) :
  is_constant (BinaryOperator cls d left right) = true
  ↔ is_constant left = true ∧ is_constant right = true.
Proof. simpl. apply andb_true_iff. Qed.

End DomainTheorems.

Lemma binary_operator_domain_witness :
  let y_on_a := Leaf "y" (on_domain ["a"]) in
  let z_on_b := Leaf "z" (on_domain ["b"]) in
  (format (Number (PyNum 2)) (Node y_on_a) = Ok (Scalar (PyNum 2), y_on_a)
   ∧ __init__ Addition (Number (PyNum 2)) (Node y_on_a)
     = Ok (BinaryOperator Addition (on_domain ["a"]) (Scalar (PyNum 2)) y_on_a))
  ∧ (format (Node y_on_a) (Node z_on_b) = Ok (y_on_a, z_on_b)
     ∧ __init__ Addition (Node y_on_a) (Node z_on_b) = Raise DomainError).
Proof.
  intros y_on_a z_on_b. split; (split; [reflexivity|]).
  - assert (format (Number (PyNum 2)) (Node y_on_a)
            = Ok (Scalar (PyNum 2), y_on_a)) as Hformat by reflexivity.
    destruct (binary_operator_domain Addition _ _ _ _ Hformat)
      as (_ & Hempty & _).
    rewrite Hempty; [reflexivity|reflexivity|discriminate].
  - assert (format (Node y_on_a) (Node z_on_b) = Ok (y_on_a, z_on_b))
      as Hformat by reflexivity.
    destruct (binary_operator_domain Addition _ _ _ _ Hformat)
      as (_ & _ & _ & Hmismatch & _).
    apply Hmismatch; discriminate.
Defined.

(** ** Numeric evaluation *)

Section NumericTheorems.
Context {backend : NumericBackend}.

(** The branches of [Division._binary_evaluate].  The left value is
    looked at first.  A sparse left value is multiplied, entry by entry,
    by the reciprocal of the right value and stored as a compressed sparse
    row matrix; the reciprocal is taken with no test of the right value.
    Otherwise a right value that is a number equal to zero gives the left
    value times infinity, computed with invalid-value warnings ignored,
    and any other right value gives the quotient of left by right. *)
Lemma division_binary_evaluate (es : errstate) (left right : value) :
  (issparse left = true →
   _binary_evaluate Division es left right =
     (reciprocal ← py_truediv es (py_int 1) right;
      product ← sparse_multiply es left reciprocal;
      csr_matrix product))
  ∧ (issparse left = false →
     isinstance_Number right = true → eq_zero right = true →
     _binary_evaluate Division es left right =
       py_mul (np_errstate_invalid_ignore es) left np_inf
     ∧ invalid (np_errstate_invalid_ignore es) = h_ignore)
  ∧ (issparse left = false →
     isinstance_Number right && eq_zero right = false →
     _binary_evaluate Division es left right = py_truediv es left right).
Proof.
  simpl. split; [|split].
  - by intros ->.
  - by intros -> -> ->.
  - by intros -> ->.
Qed.

(** C8, as the code has it.  [Inner] and [Multiplication] evaluate with
    the same dispatch on sparse operands and the same elementwise
    products; [Multiplication] alone converts a sparse product to
    compressed sparse row storage, [Inner] returns it as the sparse
    multiply gave it. *)
Theorem inner_evaluates_as_multiplication_without_csr (es : errstate)
  (left right : value) :
  _binary_evaluate Inner es left right =
    (if issparse left then sparse_multiply es left right
     else if issparse right then sparse_multiply es right left
     else py_mul es left right)
  ∧ _binary_evaluate Multiplication es left right =
      (if issparse left || issparse right
       then product ← _binary_evaluate Inner es left right; csr_matrix product
       else _binary_evaluate Inner es left right).
Proof.
  split; [done|]. simpl.
  destruct (issparse left); [done|]. by destruct (issparse right).
Qed.

End NumericTheorems.

Lemma division_binary_evaluate_witness :
  let es := default_errstate in
  _binary_evaluate Division es (SpMatrix "A") (NdArray "b")
    = Ok (Csr (SpMultiply es (SpMatrix "A")
                 (Applied u_truediv es (PyNum 1) (NdArray "b"))))
  ∧ _binary_evaluate Division es (NdArray "a") (PyNum 0)
    = Ok (Applied u_mul (np_errstate_invalid_ignore es) (NdArray "a") NpInf)
  ∧ _binary_evaluate Division es (NdArray "a") (PyNum 4)
    = Ok (Applied u_truediv es (NdArray "a") (PyNum 4)).
Proof.
  intros es.
  destruct (division_binary_evaluate (backend := symbolic_backend) es
              (SpMatrix "A" : npvalue) (NdArray "b" : npvalue))
    as (Hsparse & _ & _).
  destruct (division_binary_evaluate (backend := symbolic_backend) es
              (NdArray "a" : npvalue) (PyNum 0 : npvalue)) as (_ & Hzero & _).
  destruct (division_binary_evaluate (backend := symbolic_backend) es
              (NdArray "a" : npvalue) (PyNum 4 : npvalue))
    as (_ & _ & Hquotient).
  split; [|split].
  - rewrite Hsparse; reflexivity.
  - destruct Hzero as [-> _]; reflexivity.
  - rewrite Hquotient; reflexivity.
Defined.

(** C3.  The code departs from the claim on a sparse left value and the
    Python number zero on the right: [Division._binary_evaluate] takes its
    sparse branch, which computes [1 / right] with no test for zero, and
    raises [ZeroDivisionError], where the claim has the left value times
    infinity returned and no error.  The other branch of the same function
    tests for this very right value: with a dense left value the same zero
    gives the left value times infinity, computed with invalid-value
    warnings ignored, as the claim says; and with a right value that is
    not zero the sparse branch returns the product with the reciprocal. *)
Theorem division_by_zero_sparse_left_raises :
  let es := default_errstate in
  let zero : npvalue := PyNum 0 in
  (issparse (SpMatrix "A") = true
   ∧ isinstance_Number zero = true
   ∧ eq_zero zero = true)
  ∧ py_truediv es (py_int 1) zero = Raise ZeroDivisionError
  ∧ _binary_evaluate Division es (SpMatrix "A") zero
    = Raise ZeroDivisionError
  ∧ py_mul (np_errstate_invalid_ignore es) (SpMatrix "A") np_inf
    = Ok (Applied u_mul (np_errstate_invalid_ignore es) (SpMatrix "A") NpInf)
  ∧ _binary_evaluate Division es (SpMatrix "A") zero
    ≠ py_mul (np_errstate_invalid_ignore es) (SpMatrix "A") np_inf
  ∧ (_binary_evaluate Division es (NdArray "a") zero
     = Ok (Applied u_mul (np_errstate_invalid_ignore es) (NdArray "a") NpInf)
     ∧ invalid (np_errstate_invalid_ignore es) = h_ignore)
  ∧ _binary_evaluate Division es (SpMatrix "A") (PyNum 4)
    = Ok (Csr (SpMultiply es (SpMatrix "A")
                 (Applied u_truediv es (PyNum 1) (PyNum 4)))).
Proof.
  intros es zero.
  destruct (division_binary_evaluate (backend := symbolic_backend) es
              (SpMatrix "A" : npvalue) zero) as (Hsparse & _ & _).
  destruct (division_binary_evaluate (backend := symbolic_backend) es
              (NdArray "a" : npvalue) zero) as (_ & Hzero & _).
  split; [by repeat split|]. split; [reflexivity|].
  split; [by rewrite Hsparse|]. split; [reflexivity|].
  split; [by rewrite Hsparse|].
  split; [|reflexivity].
  destruct Hzero as [-> Hignore]; by try split.
Qed.

(** C8, the claim as stated fails: on a sparse matrix and a dense array
    [Multiplication] returns the product converted by [csr_matrix] and
    [Inner] returns it unconverted. *)
Lemma inner_differs_from_multiplication :
  let es := default_errstate in
  let product := SpMultiply es (SpMatrix "A") (NdArray "b") in
  _binary_evaluate Inner es (SpMatrix "A") (NdArray "b") = Ok product
  ∧ _binary_evaluate Multiplication es (SpMatrix "A") (NdArray "b")
    = Ok (Csr product)
  ∧ _binary_evaluate Inner es (SpMatrix "A") (NdArray "b")
    ≠ _binary_evaluate Multiplication es (SpMatrix "A") (NdArray "b").
Proof. repeat split. discriminate. Qed.

(** ** Differentiation *)

Section DifferentiationTheorems.
Context {backend : NumericBackend} {nodes : NodeAbstraction}
  {algebra : NodeAlgebra}.
Variable es : errstate.

Lemma is_array_or_negated_array_spec (left : Symbol) :
  is_array_or_negated_array left = true
  ↔ (∃ c e d, left = Array c e d)
    ∨ (∃ d' c e d, left = UnaryOperator Negate d' (Array c e d)).
Proof.
  split.
  - destruct left as [| c e d | | [] d' [] |]; simpl; try discriminate; eauto.
    all: intros _; right; eauto.
  - intros [(c & e & d & ->)|(d' & c & e & d & ->)]; reflexivity.
Qed.

(** C4.  [diff] of a matrix multiplication raises [NotImplementedError]
    for every variable.  Its Jacobian is defined exactly for a left
    operand that is an array or the negation of an array: the evaluated
    left operand, made a compressed sparse row matrix and wrapped in a
    matrix node, is matrix-multiplied with the Jacobian of the right
    child; for every other left operand [NotImplementedError] is raised. *)
Theorem matrix_multiplication_differentiation :
  (∀ d left right variable,
     diff (BinaryOperator MatrixMultiplication d left right) variable
     = Raise NotImplementedError)
  ∧ (∀ left right left_jac right_jac,
       is_array_or_negated_array left = true →
       _binary_jac es MatrixMultiplication left right left_jac right_jac =
         ('(entries, _) ← evaluate es left no_args None;
          sparse ← csr_matrix entries;
          __matmul__ (Matrix sparse) right_jac))
  ∧ (∀ c entries d right left_jac right_jac,
       _binary_jac es MatrixMultiplication (Array c entries d) right
         left_jac right_jac =
         (sparse ← csr_matrix entries; __matmul__ (Matrix sparse) right_jac))
  ∧ (∀ left right left_jac right_jac,
       is_array_or_negated_array left = false →
       _binary_jac es MatrixMultiplication left right left_jac right_jac
       = Raise NotImplementedError)
  ∧ (∀ left right left_jac right_jac,
       returns
         (_binary_jac es MatrixMultiplication left right left_jac right_jac) →
       (∃ c e d, left = Array c e d)
       ∨ (∃ d' c e d, left = UnaryOperator Negate d' (Array c e d))).
Proof.
  split; [done|]. split; [|split; [|split]].
  - intros left right lj rj Hleft. simpl. rewrite Hleft.
    destruct (evaluate es left no_args None) as [[entries known]|e]; [|done].
    simpl. by destruct (csr_matrix entries).
  - intros c entries d right lj rj. simpl.
    by destruct (csr_matrix entries).
  - intros left right lj rj Hleft. simpl. by rewrite Hleft.
  - intros left right lj rj [out Hout].
    apply is_array_or_negated_array_spec.
    destruct (is_array_or_negated_array left) eqn:Hleft; [done|].
    simpl in Hout. by rewrite Hleft in Hout.
Qed.

(** C5.  The Jacobian of a multiplication of two operands that evaluate
    to constant numbers is the scalar zero, and the Jacobian of a
    division whose right operand alone evaluates to a constant number is
    the Jacobian of the left child divided by the right child: the
    Jacobian of the right child is not used. *)
Theorem jacobian_constant_short_circuit :
  (∀ left right left_jac right_jac,
     evaluates_to_constant_number left = true →
     evaluates_to_constant_number right = true →
     _binary_jac es Multiplication left right left_jac right_jac
     = Ok (Scalar (py_int 0)))
  ∧ (∀ left right left_jac right_jac,
       evaluates_to_constant_number right = true →
       evaluates_to_constant_number left = false →
       _binary_jac es Division left right left_jac right_jac
       = __truediv__ left_jac right).
Proof.
  split.
  - intros left right lj rj Hl Hr. simpl. by rewrite Hl, Hr.
  - intros left right lj rj Hr Hl. simpl. by rewrite Hl, Hr.
Qed.

End DifferentiationTheorems.

Lemma matrix_multiplication_differentiation_witness :
  let es := default_errstate in
  let D := Array Matrix_cls (NdArray "D") no_domains in
  let u := Leaf "u" no_domains in
  let J := Leaf "J" no_domains in
  (is_array_or_negated_array D = true
   ∧ _binary_jac es MatrixMultiplication D u J J
     = Ok (BinaryOperator MatrixMultiplication no_domains
             (Matrix (Csr (NdArray "D"))) J))
  ∧ (is_array_or_negated_array (UnaryOperator Negate no_domains D) = true
     ∧ _binary_jac es MatrixMultiplication (UnaryOperator Negate no_domains D)
         u J J
       = Ok (BinaryOperator MatrixMultiplication no_domains
               (Matrix (Csr (Negated (NdArray "D")))) J))
  ∧ (is_array_or_negated_array u = false
     ∧ _binary_jac es MatrixMultiplication u u J J
       = Raise NotImplementedError).
Proof.
  intros es D u J.
  destruct (matrix_multiplication_differentiation (algebra := small_algebra) es)
    as (_ & Hsupported & _ & Hunsupported & _).
  split; [|split]; (split; [reflexivity|]).
  - rewrite (Hsupported D u J J eq_refl). reflexivity.
  - rewrite (Hsupported (UnaryOperator Negate no_domains D) u J J eq_refl).
    reflexivity.
  - apply Hunsupported. reflexivity.
Defined.

Lemma jacobian_constant_short_circuit_witness :
  let es := default_errstate in
  let two := Scalar (PyNum 2) in
  let three := Scalar (PyNum 3) in
  let x := Leaf "x" no_domains in
  let J := Leaf "J" no_domains in
  (evaluates_to_constant_number two = true
   ∧ evaluates_to_constant_number three = true
   ∧ _binary_jac es Multiplication two three J J = Ok (Scalar (PyNum 0)))
  ∧ (evaluates_to_constant_number three = true
     ∧ evaluates_to_constant_number x = false
     ∧ _binary_jac es Division x three J J
       = Ok (BinaryOperator Division no_domains J three)).
Proof.
  intros es two three x J.
  destruct (jacobian_constant_short_circuit (algebra := small_algebra) es)
    as (Hboth & Hright).
  split; (split; [reflexivity|]; split; [reflexivity|]).
  - apply Hboth; reflexivity.
  - rewrite (Hright x three J J eq_refl eq_refl). reflexivity.
Defined.

(** ** Printing *)

Section PrintingTheorems.
Context {backend : NumericBackend} {nodes : NodeAbstraction}.

Lemma left_brackets_by_class (cls lcls : binary_class) (d : Domains)
  (l r : Symbol) :
  left_brackets (name cls) (BinaryOperator lcls d l r) =
    negb (bool_decide (lcls = cls)
          || (bool_decide (lcls = Multiplication)
              && bool_decide (cls = Division))
          || (bool_decide (lcls = Addition) && bool_decide (cls = Subtraction))
          || bool_decide (cls = Addition)).
Proof. destruct cls, lcls; reflexivity. Qed.

Lemma right_brackets_by_class (cls rcls : binary_class) (d : Domains)
  (l r : Symbol) :
  right_brackets (name cls) (BinaryOperator rcls d l r) =
    negb ((bool_decide (cls = Multiplication)
           && (bool_decide (rcls = Multiplication)
               || bool_decide (rcls = Division)))
          || bool_decide (cls = Addition)).
Proof. destruct cls, rcls; vm_compute; reflexivity. Qed.

Lemma no_brackets_around_other_nodes (cls : binary_class) (s : Symbol) :
  isinstance_BinaryOperator s = false →
  left_brackets (name cls) s = false ∧ right_brackets (name cls) s = false.
Proof. by destruct s. Qed.

Lemma infix_str (cls : binary_class) (d : Domains) (l r : Symbol) :
  prints_infix cls = true →
  __str__ (BinaryOperator cls d l r) =
    (if left_brackets (name cls) l
     then "(" +:+ __str__ l +:+ ")" else __str__ l)
    +:+ " " +:+ name cls +:+ " "
    +:+ (if right_brackets (name cls) r
         then "(" +:+ __str__ r +:+ ")" else __str__ r).
Proof. by destruct cls. Qed.

Lemma prints_infix_classes (cls : binary_class) :
  prints_infix cls = false
  ↔ cls = EqualHeaviside ∨ cls = NotEqualHeaviside ∨ cls = Modulo
    ∨ cls = Minimum ∨ cls = Maximum.
Proof.
  destruct cls; simpl; (split; [intros Hc; try discriminate Hc; auto 10|]).
  all: by intros [?|[?|[?|[?|?]]]].
Qed.

Lemma own_str (d : Domains) (l r : Symbol) :
  __str__ (BinaryOperator EqualHeaviside d l r)
  = __str__ l +:+ " <= " +:+ __str__ r
  ∧ __str__ (BinaryOperator NotEqualHeaviside d l r)
    = __str__ l +:+ " < " +:+ __str__ r
  ∧ __str__ (BinaryOperator Modulo d l r)
    = __str__ l +:+ " mod " +:+ __str__ r
  ∧ __str__ (BinaryOperator Minimum d l r)
    = "minimum(" +:+ __str__ l +:+ ", " +:+ __str__ r +:+ ")"
  ∧ __str__ (BinaryOperator Maximum d l r)
    = "maximum(" +:+ __str__ l +:+ ", " +:+ __str__ r +:+ ")".
Proof. done. Qed.

End PrintingTheorems.

(** C9, as the code has it.  All classes but [EqualHeaviside],
    [NotEqualHeaviside], [Modulo], [Minimum] and [Maximum] print through
    [BinaryOperator.__str__].  Such an operator puts parentheses around
    its left child exactly when the child is a binary operator and none of
    these holds: the child has the class of the parent, the child is a
    multiplication under a division, the child is an addition under a
    subtraction, the parent is an addition; and around its right child
    exactly when the child is a binary operator and neither of these
    holds: the parent is a multiplication and the child a multiplication
    or a division, the parent is an addition.  So
    [Addition(Multiplication(a, b), c)] prints as [a * b + c] and
    [Multiplication(Addition(a, b), c)] as [(a + b) * c].  The five other
    classes print with their own [__str__], which puts no parentheses
    around either child whatever the children are: [l <= r], [l < r],
    [l mod r], [minimum(l, r)] and [maximum(l, r)]; so
    [Modulo(Subtraction(a, b), c)] prints as [a - b mod c]. *)
Theorem str_brackets_rule :
  (∀ (backend : NumericBackend) (nodes : NodeAbstraction)
     (cls : binary_class) (d : Domains) (l r : Symbol),
     prints_infix cls = true →
     __str__ (BinaryOperator cls d l r) =
       (if left_brackets (name cls) l
        then "(" +:+ __str__ l +:+ ")" else __str__ l)
       +:+ " " +:+ name cls +:+ " "
       +:+ (if right_brackets (name cls) r
            then "(" +:+ __str__ r +:+ ")" else __str__ r))
  ∧ (∀ (backend : NumericBackend) (cls child : binary_class) (d : Domains)
       (l r : Symbol),
       left_brackets (name cls) (BinaryOperator child d l r) =
         negb (bool_decide (child = cls)
               || (bool_decide (child = Multiplication)
                   && bool_decide (cls = Division))
               || (bool_decide (child = Addition)
                   && bool_decide (cls = Subtraction))
               || bool_decide (cls = Addition))
       ∧ right_brackets (name cls) (BinaryOperator child d l r) =
           negb ((bool_decide (cls = Multiplication)
                  && (bool_decide (child = Multiplication)
                      || bool_decide (child = Division)))
                 || bool_decide (cls = Addition)))
  ∧ (∀ (backend : NumericBackend) (cls : binary_class) (s : Symbol),
       isinstance_BinaryOperator s = false →
       left_brackets (name cls) s = false
       ∧ right_brackets (name cls) s = false)
  ∧ __str__ (BinaryOperator Addition no_domains
               (BinaryOperator Multiplication no_domains leaf_a leaf_b) leaf_c)
    = "a * b + c"
  ∧ __str__ (BinaryOperator Multiplication no_domains
               (BinaryOperator Addition no_domains leaf_a leaf_b) leaf_c)
    = "(a + b) * c"
  ∧ (∀ cls : binary_class,
       prints_infix cls = false
       ↔ cls = EqualHeaviside ∨ cls = NotEqualHeaviside ∨ cls = Modulo
         ∨ cls = Minimum ∨ cls = Maximum)
  ∧ (∀ (backend : NumericBackend) (nodes : NodeAbstraction) (d : Domains)
       (l r : Symbol),
       __str__ (BinaryOperator EqualHeaviside d l r)
       = __str__ l +:+ " <= " +:+ __str__ r
       ∧ __str__ (BinaryOperator NotEqualHeaviside d l r)
         = __str__ l +:+ " < " +:+ __str__ r
       ∧ __str__ (BinaryOperator Modulo d l r)
         = __str__ l +:+ " mod " +:+ __str__ r
       ∧ __str__ (BinaryOperator Minimum d l r)
         = "minimum(" +:+ __str__ l +:+ ", " +:+ __str__ r +:+ ")"
       ∧ __str__ (BinaryOperator Maximum d l r)
         = "maximum(" +:+ __str__ l +:+ ", " +:+ __str__ r +:+ ")")
  ∧ __str__ (BinaryOperator Modulo no_domains
               (BinaryOperator Subtraction no_domains leaf_a leaf_b) leaf_c)
    = "a - b mod c".
Proof.
  split; [|split; [|split; [|split; [|split; [|split; [|split]]]]]].
  - intros. by apply infix_str.
  - intros. split;
      [apply left_brackets_by_class | apply right_brackets_by_class].
  - intros. by apply no_brackets_around_other_nodes.
  - reflexivity.
  - reflexivity.
  - apply prints_infix_classes.
  - intros. apply own_str.
  - reflexivity.
Qed.

Lemma str_brackets_rule_witness :
  (prints_infix Division = true
   ∧ __str__ (BinaryOperator Division no_domains
                (BinaryOperator Multiplication no_domains leaf_a leaf_b)
                (BinaryOperator Subtraction no_domains leaf_b leaf_c))
     = "a * b / (b - c)")
  ∧ (isinstance_BinaryOperator leaf_a = false
     ∧ left_brackets (name Power) leaf_a = false).
Proof.
  destruct str_brackets_rule as (Hstr & _ & Hleaf & _).
  split; (split; [reflexivity|]).
  - rewrite (Hstr symbolic_backend small_nodes Division); reflexivity.
  - apply (Hleaf symbolic_backend Power leaf_a). reflexivity.
Defined.

(** C9, the claim as stated fails: the product on the left of a
    subtraction is printed in parentheses although the text parses the
    same without them. *)
Lemma str_brackets_not_minimal :
  let product := BinaryOperator Multiplication no_domains leaf_a leaf_b in
  __str__ (BinaryOperator Subtraction no_domains product leaf_c)
  = "(a * b) - c"
  ∧ left_brackets (name Subtraction) product = true
  ∧ omitting_changes_parse_left Subtraction Multiplication = false
  ∧ ¬ (∀ (parent child : binary_class) (d : Domains) (l r : Symbol),
         prints_infix parent = true →
         left_brackets (name parent) (BinaryOperator child d l r) = true →
         omitting_changes_parse_left parent child = true).
Proof.
  intros product. split; [reflexivity|]. split; [reflexivity|].
  split; [reflexivity|].
  intros Hminimal.
  specialize (Hminimal Subtraction Multiplication no_domains leaf_a leaf_b
                eq_refl eq_refl).
  discriminate Hminimal.
Qed.

(** ** The smoothing factories *)

Section FactoryTheorems.
Context {backend : NumericBackend} {nodes : NodeAbstraction}
  {algebra : NodeAlgebra}.
Variable es : errstate.





End FactoryTheorems.



(** ** Copy *)

Section CopyTheorems.
Context {backend : NumericBackend} {nodes : NodeAbstraction}.

Lemma new_copy_constructible (self : Symbol) :
  constructible self → new_copy self = Ok self.
Proof.
  induction self as [| | |cls d child IH|cls d l IHl r IHr]; simpl; try done.
  - intros Hchild. by rewrite (IH Hchild).
  - intros (Hl & Hr & d' & Hinit).
    rewrite (IHl Hl), (IHr Hr). simpl.
    unfold _binary_new_copy. by rewrite Hinit.
Qed.

Lemma new_copy_forces_domains (cls : binary_class) (d : Domains)
  (l r out : Symbol) :
  new_copy (BinaryOperator cls d l r) = Ok out →
  ∃ l' r', out = BinaryOperator cls d l' r'.
Proof.
  simpl. destruct (new_copy l) as [new_left|]; [|done].
  destruct (new_copy r) as [new_right|]; [|done]. simpl.
  unfold _binary_new_copy, __init__.
  destruct (format _ _) as [[l' r']|]; [|done]. simpl.
  destruct (get_children_domains _ _); [|done]. simpl.
  destruct (get_children_auxiliary_domains _); [|done]. simpl.
  intros [= <-]. eauto.
Qed.

(** The constructor accepts again, unchanged, the children of a node it
    has built: after [format] the two domains are equal or one is empty,
    so no broadcast is added the second time. *)
Lemma format_stable (l r : Symbol) (d : list string) :
  get_children_domains (domain l) (domain r) = Ok d →
  format (Node l) (Node r) = Ok (l, r).
Proof.
  unfold get_children_domains, format. intros Hd.
  destruct (bool_decide_reflect (domain l ≠ [])) as [Hl|Hl]; [|done].
  destruct (bool_decide_reflect (domain r ≠ [])) as [Hr|Hr]; [|done].
  simpl.
  destruct (bool_decide_reflect (domain l = domain r)) as [Heq|Hne].
  - rewrite (bool_decide_eq_false_2 (domain l ≠ domain r))
      by (intros Hc; by apply Hc).
    simpl.
    rewrite (bool_decide_eq_false_2 (domain r ≠ domain l))
      by (intros Hc; by apply Hc).
    done.
  - rewrite (bool_decide_eq_false_2 (domain l = [])) in Hd by done.
    by rewrite (bool_decide_eq_false_2 (domain r = [])) in Hd by done.
Qed.

Lemma init_inversion (cls : binary_class) (left right : operand)
  (node : Symbol) :
  __init__ cls left right = Ok node →
  ∃ d l r, node = BinaryOperator cls d l r
           ∧ format left right = Ok (l, r)
           ∧ __init__ cls (Node l) (Node r) = Ok node.
Proof.
  unfold __init__ at 1.
  destruct (format left right) as [[l r]|] eqn:Hformat; [|done]. simpl.
  destruct (get_children_domains _ _) as [d|] eqn:Hd; [|done]. simpl.
  destruct (get_children_auxiliary_domains _) as [aux|] eqn:Haux; [|done].
  simpl. intros [= <-]. eexists _, l, r. split; [done|]. split; [done|].
  unfold __init__. rewrite (format_stable l r d Hd). simpl.
  by rewrite Hd, Haux.
Qed.

Section Built.
(** The broadcast collaborator wraps the child it is given. *)
Hypothesis PrimaryBroadcast_wraps :
  ∀ child broadcast_domain out,
    PrimaryBroadcast child broadcast_domain = Ok out →
    ∃ d, out = UnaryOperator PrimaryBroadcast_cls d child.

Lemma format_children (P : Symbol → Prop) (left right : operand)
  (l r : Symbol) :
  (∀ v, P (Scalar v)) →
  (∀ d child, P child → P (UnaryOperator PrimaryBroadcast_cls d child)) →
  (∀ s, left = Node s → P s) → (∀ s, right = Node s → P s) →
  format left right = Ok (l, r) → P l ∧ P r.
Proof.
  intros Hscalar Hbroadcast Hleft Hright. unfold format.
  assert (∀ x s, (∀ s', x = Node s' → P s') →
            match x with Number v => Node (Scalar v) | _ => x end = Node s →
            P s) as Hconverted.
  { intros [v|s'|ty] s Hx [= <-]; [apply Hscalar|by apply Hx]. }
  destruct (match left with Number v => Node (Scalar v) | _ => left end)
    as [|l0|] eqn:Hl0; try done.
  destruct (match right with Number v => Node (Scalar v) | _ => right end)
    as [|r0|] eqn:Hr0; try done.
  pose proof (Hconverted left l0 Hleft Hl0) as Pl0.
  pose proof (Hconverted right r0 Hright Hr0) as Pr0.
  destruct (_ && _); [|by intros [= <- <-]].
  destruct (_ && _).
  - destruct (PrimaryBroadcast l0 (domain r0)) as [l1|] eqn:Hl1; [|done].
    destruct (PrimaryBroadcast_wraps _ _ _ Hl1) as [d ->]. simpl.
    destruct (_ && _).
    + destruct (PrimaryBroadcast r0 _) as [r1|] eqn:Hr1; [|done].
      destruct (PrimaryBroadcast_wraps _ _ _ Hr1) as [d' ->]. simpl.
      intros [= <- <-]. split; by apply Hbroadcast.
    + simpl. intros [= <- <-]. split; [by apply Hbroadcast|done].
  - simpl. destruct (_ && _).
    + destruct (PrimaryBroadcast r0 _) as [r1|] eqn:Hr1; [|done].
      destruct (PrimaryBroadcast_wraps _ _ _ Hr1) as [d' ->]. simpl.
      intros [= <- <-]. split; [done|by apply Hbroadcast].
    + simpl. by intros [= <- <-].
Qed.

Lemma constructible_copy_domains (node : Symbol) (d : Domains) :
  constructible node → constructible (copy_domains node d).
Proof. by destruct node. Qed.

(** Every tree made by the constructors is accepted by them again. *)
Lemma built_constructible (s : Symbol) : built s → constructible s.
Proof.
  induction 1 as [| | |cls d child _ IH|cls left right node _ IHl _ IHr Hinit
                 |node d _ IH]; simpl; try done.
  - destruct (init_inversion _ _ _ _ Hinit) as (d & l & r & -> & Hformat & Hl).
    destruct (format_children constructible left right l r) as [Hcl Hcr];
      try done.
    simpl. eauto.
  - by apply constructible_copy_domains.
Qed.

End Built.

(** C6.  [new_copy] copies the two children, builds a node of the same
    class from the copies and then forces the domain and the auxiliary
    domains of the original onto it, so a copy always has the class and
    the domain metadata of the original.  For a node whose children are
    accepted by the constructor as they are, the copy is returned and
    evaluates, on every input, to what the original evaluates to. *)
Theorem new_copy_round_trip (cls : binary_class) (d : Domains)
  (left right : Symbol) :
  let self := BinaryOperator cls d left right in
  new_copy self =
    (new_left ← new_copy left;
     new_right ← new_copy right;
     out ← __init__ cls (Node new_left) (Node new_right);
     Ok (copy_domains out d))
  ∧ (∀ out, new_copy self = Ok out →
       (∃ l' r', out = BinaryOperator cls d l' r')
       ∧ domain out = domain self
       ∧ auxiliary_domains out = auxiliary_domains self)
  ∧ (constructible self →
     ∃ out, new_copy self = Ok out
            ∧ domain out = domain self
            ∧ auxiliary_domains out = auxiliary_domains self
            ∧ ∀ es args known_evals,
                evaluate es out args known_evals
                = evaluate es self args known_evals).
Proof.
  intros self. split; [done|]. split.
  - intros out Hout.
    destruct (new_copy_forces_domains _ _ _ _ _ Hout) as (l' & r' & ->).
    eauto.
  - intros Hself. exists self.
    by rewrite (new_copy_constructible self Hself).
Qed.

End CopyTheorems.

Lemma new_copy_round_trip_witness :
  let x := Leaf "x" (on_domain ["a"]) in
  let y := Leaf "y" (with_secondary ["b"] ["a"]) in
  let broadcast_x :=
    UnaryOperator PrimaryBroadcast_cls (with_secondary ["b"] ["a"]) x in
  let self :=
    BinaryOperator Addition (with_secondary ["b"] ["a"]) broadcast_x y in
  __init__ Addition (Node x) (Node y) = Ok self
  ∧ constructible self
  ∧ new_copy self = Ok self
  ∧ ∀ es args known_evals,
      (out ← new_copy self; evaluate es out args known_evals)
      = evaluate es self args known_evals.
Proof.
  intros x y broadcast_x self.
  assert (constructible self) as Hself.
  { simpl. repeat split. eexists. reflexivity. }
  destruct (new_copy_round_trip Addition (with_secondary ["b"] ["a"])
              broadcast_x y) as (_ & _ & Hcopy).
  destruct (Hcopy Hself) as (out & Hout & _ & _ & Hevaluate).
  split; [reflexivity|]. split; [exact Hself|]. split; [reflexivity|].
  intros es args known_evals. unfold self.
  rewrite Hout. apply Hevaluate.
Defined.

(** ** Memoized evaluation *)

Section EvaluationTheorems.
Context {backend : NumericBackend} {nodes : NodeAbstraction}.
Variable es : errstate.
Variable args : eval_args.

Lemma plain_scalar (v : value) : plain es args (Scalar v) = Ok v.
Proof. done. Qed.

Lemma plain_array (c : array_class) (e : value) (d : Domains) :
  plain es args (Array c e d) = Ok e.
Proof. done. Qed.

Lemma plain_leaf (lname : string) (d : Domains) :
  plain es args (Leaf lname d) = _base_evaluate lname d args.
Proof. unfold plain. simpl. by destruct (_base_evaluate lname d args). Qed.

Lemma plain_unary (cls : unary_class) (d : Domains) (child : Symbol) :
  plain es args (UnaryOperator cls d child)
  = (v ← plain es args child; _unary_evaluate cls es v).
Proof.
  unfold plain. simpl.
  destruct (evaluate es child args None) as [[cv known]|e]; [|done].
  simpl. by destruct (_unary_evaluate cls es cv).
Qed.

Lemma plain_binary (cls : binary_class) (d : Domains) (l r : Symbol) :
  plain es args (BinaryOperator cls d l r)
  = (lv ← plain es args l; rv ← plain es args r;
     _binary_evaluate cls es lv rv).
Proof.
  unfold plain. simpl.
  destruct (evaluate es l args None) as [[lv lknown]|e]; [|done]. simpl.
  destruct (evaluate es r args None) as [[rv rknown]|e]; [|done]. simpl.
  by destruct (_binary_evaluate cls es lv rv).
Qed.

(** A set of nodes closed under children, on which identities tell nodes
    apart. *)
Variable U : Symbol → Prop.
Hypothesis U_unary : ∀ cls d child, U (UnaryOperator cls d child) → U child.
Hypothesis U_binary :
  ∀ cls d l r, U (BinaryOperator cls d l r) → U l ∧ U r.
Hypothesis U_ids : ∀ a b, U a → U b → Symbol_id a = Symbol_id b → a = b.

Lemma sound_insert (n : Symbol) (v : value) (known : gmap Z value) :
  U n → plain es args n = Ok v → sound es args U known →
  sound es args U (<[Symbol_id n := v]> known).
Proof.
  intros Hn Hv Hknown a w Ha.
  destruct (decide (Symbol_id n = Symbol_id a)) as [Heq|Hne].
  - rewrite Heq, lookup_insert_eq. intros [= <-].
    by rewrite <- (U_ids n a Hn Ha Heq).
  - rewrite lookup_insert_ne by done. by apply Hknown.
Qed.

Lemma agrees_hit (n : Symbol) (v : value) (known : gmap Z value) :
  U n → sound es args U known → known !! Symbol_id n = Some v →
  evaluate es n args (Some known) = Ok (v, Some known) →
  agrees es args U n known.
Proof.
  intros Hn Hknown Hhit Heval. unfold agrees.
  rewrite (Hknown n v Hn Hhit). eauto.
Qed.

Lemma agrees_leaf (n : Symbol) (base : result value) (known : gmap Z value) :
  U n → sound es args U known → plain es args n = base →
  evaluate es n args (Some known)
  = Symbol_evaluate (Symbol_id n) base (Some known) →
  agrees es args U n known.
Proof.
  intros Hn Hknown Hplain Heval.
  destruct (known !! Symbol_id n) as [w|] eqn:Hlookup.
  - apply (agrees_hit n w); try done.
    rewrite Heval. simpl. by rewrite Hlookup.
  - unfold agrees. rewrite Heval. simpl. rewrite Hlookup, Hplain.
    destruct base as [v|e]; [|done]. simpl.
    eexists. split; [done|]. split; [apply lookup_insert_eq|].
    by apply sound_insert.
Qed.

Lemma memoized_agrees (n : Symbol) :
  U n → ∀ known, sound es args U known → agrees es args U n known.
Proof.
  induction n as [v|c e d|lname d|cls d child IH|cls d l IHl r IHr];
    intros Hn known Hknown.
  - by apply (agrees_leaf _ (Ok v)).
  - by apply (agrees_leaf _ (Ok e)).
  - apply (agrees_leaf _ (_base_evaluate lname d args)); try done.
    apply plain_leaf.
  - destruct (known !! Symbol_id (UnaryOperator cls d child)) as [w|]
      eqn:Hlookup.
    { apply (agrees_hit _ w); try done. simpl. by rewrite Hlookup. }
    specialize (IH (U_unary _ _ _ Hn) known Hknown).
    unfold agrees in *. rewrite plain_unary. simpl. rewrite Hlookup.
    destruct (plain es args child) as [cv|e] eqn:Hchild; simpl;
      [|by rewrite IH].
    destruct IH as (known1 & -> & _ & Hknown1). simpl.
    destruct (_unary_evaluate cls es cv) as [v|e] eqn:Hv; simpl; [|done].
    eexists. split; [done|]. split; [apply lookup_insert_eq|].
    apply sound_insert; try done.
    rewrite plain_unary, Hchild. done.
  - destruct (known !! Symbol_id (BinaryOperator cls d l r)) as [w|]
      eqn:Hlookup.
    { apply (agrees_hit _ w); try done. simpl. by rewrite Hlookup. }
    destruct (U_binary _ _ _ _ Hn) as [Hl Hr].
    specialize (IHl Hl known Hknown).
    unfold agrees in *. rewrite plain_binary. simpl. rewrite Hlookup.
    destruct (plain es args l) as [lv|e] eqn:Hlv; simpl;
      [|by rewrite IHl].
    destruct IHl as (known1 & -> & _ & Hknown1). simpl.
    specialize (IHr Hr known1 Hknown1).
    destruct (plain es args r) as [rv|e] eqn:Hrv; simpl;
      [|by rewrite IHr].
    destruct IHr as (known2 & -> & _ & Hknown2). simpl.
    destruct (_binary_evaluate cls es lv rv) as [v|e] eqn:Hv; simpl; [|done].
    eexists. split; [done|]. split; [apply lookup_insert_eq|].
    apply sound_insert; try done.
    rewrite plain_binary, Hlv. simpl. rewrite Hrv. done.
Qed.

End EvaluationTheorems.

Section MemoizationTheorem.
Context {backend : NumericBackend} {nodes : NodeAbstraction}.

Lemma pre_order_self (s : Symbol) : s ∈ pre_order s.
Proof. destruct s; simpl; apply list_elem_of_here. Qed.

Lemma pre_order_trans (a b s : Symbol) :
  a ∈ pre_order s → b ∈ pre_order a → b ∈ pre_order s.
Proof.
  induction s as [| | |cls d child IH|cls d l IHl r IHr]; simpl.
  1-3: by intros ->%list_elem_of_singleton.
  - intros [->|Ha]%elem_of_cons; [done|].
    intros Hb. apply elem_of_cons. right. by apply IH.
  - intros [->|[Ha|Ha]%elem_of_app]%elem_of_cons; [done| |];
      intros Hb; apply elem_of_cons; right; apply elem_of_app.
    + left. by apply IHl.
    + right. by apply IHr.
Qed.

Lemma pre_order_unary (cls : unary_class) (d : Domains) (child s : Symbol) :
  UnaryOperator cls d child ∈ pre_order s → child ∈ pre_order s.
Proof.
  intros Hin. apply (pre_order_trans _ _ _ Hin). simpl.
  apply elem_of_cons. right. apply pre_order_self.
Qed.

Lemma pre_order_binary (cls : binary_class) (d : Domains) (l r s : Symbol) :
  BinaryOperator cls d l r ∈ pre_order s →
  l ∈ pre_order s ∧ r ∈ pre_order s.
Proof.
  intros Hin.
  split; apply (pre_order_trans _ _ _ Hin); simpl; apply elem_of_cons; right;
    apply elem_of_app; [left|right]; apply pre_order_self.
Qed.

(** C2.  For a binary node and fixed arguments, evaluation with a
    memoization map gives the value (or the exception) that evaluation
    with no map gives.  The map is one of this call: whatever it holds
    under the identity of a node of the tree is the value of that node
    for these arguments, the empty map included; and identities tell the
    nodes of the tree apart.  The map returned holds the value under the
    identity of the node and is again such a map. *)
Theorem evaluate_memoized_agrees (es : errstate) (args : eval_args)
  (cls : binary_class) (d : Domains) (left right : Symbol)
  (known : gmap Z value) :
  let self := BinaryOperator cls d left right in
  ids_identify self →
  memoization_map es args self known →
  fst <$> evaluate es self args (Some known)
  = fst <$> evaluate es self args None
  ∧ ∀ v, fst <$> evaluate es self args None = Ok v →
         ∃ known', evaluate es self args (Some known) = Ok (v, Some known')
                   ∧ known' !! Symbol_id self = Some v
                   ∧ memoization_map es args self known'.
Proof.
  intros self Hids Hknown.
  pose proof (memoized_agrees es args (λ a, a ∈ pre_order self)
                (λ c d' ch, pre_order_unary c d' ch self)
                (λ c d' l r, pre_order_binary c d' l r self)
                Hids self (pre_order_self self) known Hknown) as Hagrees.
  unfold agrees, plain in Hagrees.
  destruct (fst <$> evaluate es self args None) as [v|e] eqn:Hplain.
  - destruct Hagrees as (known' & Heval & Hstored & Hknown').
    split.
    + by rewrite Heval.
    + intros w [= <-]. eauto.
  - split; [by rewrite Hagrees|done].
Qed.

End MemoizationTheorem.

(** Case analysis on the membership of a node in a list written out. *)
Ltac each_node H :=
  repeat (apply elem_of_cons in H as [->|H]);
  try (by apply elem_of_nil in H).

Lemma evaluate_memoized_agrees_witness :
  let es := default_errstate in
  let args := at_time 0 {[ "a" := PyNum 7 ]} in
  let product :=
    BinaryOperator Multiplication no_domains leaf_a (Scalar (PyNum 2)) in
  let self := BinaryOperator Addition no_domains product product in
  let known : gmap Z npvalue := {[ Symbol_id leaf_a := PyNum 7 ]} in
  ids_identify self
  ∧ memoization_map es args self known
  ∧ fst <$> evaluate es self args (Some known) = Ok (PyNum 28).
Proof.
  intros es args product self known.
  assert (ids_identify self) as Hids.
  { intros a b Ha Hb Hid. simpl in Ha, Hb.
    each_node Ha; each_node Hb;
      first [reflexivity | vm_compute in Hid; discriminate Hid]. }
  assert (memoization_map es args self known) as Hknown.
  { intros a v Ha Hlookup. simpl in Ha.
    each_node Ha; vm_compute in Hlookup;
      first [discriminate Hlookup | injection Hlookup as <-; reflexivity]. }
  split; [exact Hids|]. split; [exact Hknown|].
  destruct (evaluate_memoized_agrees es args Addition no_domains
              product product known Hids Hknown) as [Hagree _].
  etransitivity; [exact Hagree|reflexivity].
Defined.

(** * Further properties of the code *)

(** ** Combining domains and formatting children *)

(** X1.  Combining two domains does not depend on their order: the two
    orders give the same domain or both raise [DomainError]. *)
Theorem get_children_domains_comm (ldomain rdomain : list string) :
  get_children_domains ldomain rdomain = get_children_domains rdomain ldomain.
Proof.
  unfold get_children_domains.
  repeat case_bool_decide; congruence.
Qed.

(** X2.  Combining three domains does not depend on the grouping: both
    groupings give the same domain or both raise [DomainError]. *)
Theorem get_children_domains_assoc (a b c : list string) :
  (d ← get_children_domains a b; get_children_domains d c)
  = (d ← get_children_domains b c; get_children_domains a d).
Proof.
  unfold get_children_domains.
  repeat (case_bool_decide; simpl); congruence.
Qed.

Section FormatTheorems.
Context {backend : NumericBackend} {nodes : NodeAbstraction}.

(** X3.  A plain number combines with every node: it becomes a scalar
    child, no broadcast is asked for, no [DomainError] is raised, and the
    node built has the domain of the other child. *)
Theorem init_with_number (cls : binary_class) (v : value) (s : Symbol) :
  __init__ cls (Number v) (Node s) =
    (aux ← get_children_auxiliary_domains [Scalar v; s];
     Ok (BinaryOperator cls {| primary := domain s; auxiliary := aux |}
           (Scalar v) s))
  ∧ __init__ cls (Node s) (Number v) =
      (aux ← get_children_auxiliary_domains [s; Scalar v];
       Ok (BinaryOperator cls {| primary := domain s; auxiliary := aux |}
             s (Scalar v))).
Proof.
  unfold __init__, format. simpl. split.
  - by rewrite get_children_domains_left_empty.
  - rewrite andb_false_r. simpl.
    by rewrite get_children_domains_right_empty.
Qed.

(** X4.  An operand that is neither a number nor a node makes the
    constructor of every class raise [NotImplementedError], on either
    side and whatever the other operand is. *)
Theorem init_type_error (cls : binary_class) (type_name : string)
  (other : operand) :
  __init__ cls (PyObject type_name) other = Raise NotImplementedError
  ∧ __init__ cls other (PyObject type_name) = Raise NotImplementedError.
Proof. unfold __init__, format. by destruct other. Qed.

(** X5.  The automatic broadcast settles a mismatch: when both domains are
    non-empty and differ, the left domain is the secondary domain of the
    right child and the broadcast of the left child to the right domain
    has that domain, the left child alone is replaced by its broadcast
    and the node built has the right domain.  The same holds with left
    and right exchanged when the left child is not broadcast. *)
Theorem format_broadcast (cls : binary_class) (l r : Symbol) :
  domain l ≠ [] → domain r ≠ [] → domain l ≠ domain r →
  (∀ l', auxiliary_domains r !! "secondary" = Some (domain l) →
         PrimaryBroadcast l (domain r) = Ok l' → domain l' = domain r →
         format (Node l) (Node r) = Ok (l', r)
         ∧ __init__ cls (Node l) (Node r) =
             (aux ← get_children_auxiliary_domains [l'; r];
              Ok (BinaryOperator cls
                    {| primary := domain r; auxiliary := aux |} l' r)))
  ∧ (∀ r', auxiliary_domains r !! "secondary" ≠ Some (domain l) →
           auxiliary_domains l !! "secondary" = Some (domain r) →
           PrimaryBroadcast r (domain l) = Ok r' → domain r' = domain l →
           format (Node l) (Node r) = Ok (l, r')
           ∧ __init__ cls (Node l) (Node r) =
               (aux ← get_children_auxiliary_domains [l; r'];
                Ok (BinaryOperator cls
                      {| primary := domain l; auxiliary := aux |} l r'))).
Proof.
  intros Hl Hr Hne. split.
  - intros l' Hsecondary Hbroadcast Hdomain.
    assert (format (Node l) (Node r) = Ok (l', r)) as Hformat.
    { unfold format.
      rewrite !bool_decide_eq_true_2 by done. simpl.
      rewrite Hbroadcast. simpl.
      rewrite (bool_decide_eq_false_2 (domain r ≠ domain l'))
        by (intros Hc; by apply Hc).
      done. }
    split; [done|]. rewrite (init_after_format cls _ _ _ _ Hformat).
    by rewrite Hdomain, get_children_domains_equal.
  - intros r' Hnot Hsecondary Hbroadcast Hdomain.
    assert (format (Node l) (Node r) = Ok (l, r')) as Hformat.
    { unfold format.
      rewrite (bool_decide_eq_true_2 (domain l ≠ [])) by done.
      rewrite (bool_decide_eq_true_2 (domain r ≠ [])) by done.
      rewrite (bool_decide_eq_false_2 _ Hnot).
      rewrite andb_false_r. simpl.
      rewrite !bool_decide_eq_true_2 by done. simpl.
      by rewrite Hbroadcast. }
    split; [done|]. rewrite (init_after_format cls _ _ _ _ Hformat).
    by rewrite Hdomain, get_children_domains_equal.
Qed.

End FormatTheorems.

Lemma format_broadcast_witness :
  let x := Leaf "x" (on_domain ["a"]) in
  let y := Leaf "y" (with_secondary ["b"] ["a"]) in
  let broadcast_x :=
    UnaryOperator PrimaryBroadcast_cls (with_secondary ["b"] ["a"]) x in
  (domain x ≠ [] ∧ domain y ≠ [] ∧ domain x ≠ domain y
   ∧ auxiliary_domains y !! "secondary" = Some (domain x)
   ∧ PrimaryBroadcast x (domain y) = Ok broadcast_x
   ∧ format (Node x) (Node y) = Ok (broadcast_x, y))
  ∧ __init__ Multiplication (Node y) (Node x)
    = Ok (BinaryOperator Multiplication (with_secondary ["b"] ["a"])
            y broadcast_x).
Proof.
  intros x y broadcast_x.
  assert (domain x ≠ []) as Hx by discriminate.
  assert (domain y ≠ []) as Hy by discriminate.
  assert (domain x ≠ domain y) as Hxy by discriminate.
  assert (domain y ≠ domain x) as Hyx by discriminate.
  split.
  - do 3 (split; [done|]). split; [reflexivity|]. split; [reflexivity|].
    destruct (format_broadcast Multiplication x y Hx Hy Hxy) as [Hleft _].
    apply (Hleft broadcast_x); reflexivity.
  - destruct (format_broadcast Multiplication y x Hy Hx Hyx) as [_ Hright].
    destruct (Hright broadcast_x) as [_ Hinit];
      [discriminate|reflexivity|reflexivity|reflexivity|].
    etransitivity; [exact Hinit|reflexivity].
Defined.

(** ** The memoization map *)

Section MemoTheorems.
Context {backend : NumericBackend} {nodes : NodeAbstraction}.
Variable es : errstate.
Variable args : eval_args.

Lemma evaluate_known_grows (n : Symbol) :
  ∀ known v out,
    evaluate es n args (Some known) = Ok (v, out) →
    ∃ known', out = Some known' ∧ known ⊆ known'
              ∧ known' !! Symbol_id n = Some v.
Proof.
  assert (∀ id (base : result value) known v out,
            Symbol_evaluate id base (Some known) = Ok (v, out) →
            ∃ known', out = Some known' ∧ known ⊆ known'
                      ∧ known' !! id = Some v) as Hleaf.
  { intros id base known v out. simpl.
    destruct (known !! id) as [w|] eqn:Hlookup.
    - intros [= <- <-]. eauto.
    - destruct base as [w|]; [|done]. simpl. intros [= <- <-].
      eexists. split; [done|]. split; [by apply insert_subseteq|].
      apply lookup_insert_eq. }
  induction n as [w|c e d|lname d|cls d child IH|cls d l IHl r IHr];
    intros known v out; try apply Hleaf.
  - simpl. destruct (known !! _) as [w|] eqn:Hlookup.
    { intros [= <- <-]. eauto. }
    destruct (evaluate es child args (Some known)) as [[cv cout]|] eqn:Hchild;
      [|done].
    destruct (IH _ _ _ Hchild) as (known1 & -> & Hsub & _). simpl.
    destruct (_unary_evaluate cls es cv) as [w|]; [|done]. simpl.
    intros [= <- <-]. eexists. split; [done|].
    split; [by apply insert_subseteq_r|]. apply lookup_insert_eq.
  - simpl. destruct (known !! _) as [w|] eqn:Hlookup.
    { intros [= <- <-]. eauto. }
    destruct (evaluate es l args (Some known)) as [[lv lout]|] eqn:Hleft;
      [|done].
    destruct (IHl _ _ _ Hleft) as (known1 & -> & Hsub1 & _). simpl.
    destruct (evaluate es r args (Some known1)) as [[rv rout]|] eqn:Hright;
      [|done].
    destruct (IHr _ _ _ Hright) as (known2 & -> & Hsub2 & _). simpl.
    destruct (_binary_evaluate cls es lv rv) as [w|]; [|done]. simpl.
    intros [= <- <-]. eexists. split; [done|].
    split; [|apply lookup_insert_eq].
    apply insert_subseteq_r; [done|]. by transitivity known1.
Qed.

(** X6.  A memoized evaluation that returns hands back a map; the map
    keeps every entry it was given, unchanged, and holds the returned
    value under the identity of the node.  This needs nothing of the map
    or of the identities. *)
Theorem evaluate_known_keeps_entries (self : Symbol)
  (known : gmap Z value) (v : value) (out : option (gmap Z value)) :
  evaluate es self args (Some known) = Ok (v, out) →
  ∃ known', out = Some known'
            ∧ (∀ id w, known !! id = Some w → known' !! id = Some w)
            ∧ known' !! Symbol_id self = Some v.
Proof.
  intros Hevaluate.
  destruct (evaluate_known_grows self known v out Hevaluate)
    as (known' & -> & Hsub & Hstored).
  exists known'. split; [done|]. split; [|done].
  intros id w Hid. by apply (lookup_weaken known).
Qed.

(** A set of nodes closed under children, on which identities tell nodes
    apart. *)
Variable U : Symbol → Prop.
Hypothesis U_unary : ∀ cls d child, U (UnaryOperator cls d child) → U child.
Hypothesis U_binary :
  ∀ cls d l r, U (BinaryOperator cls d l r) → U l ∧ U r.
Hypothesis U_ids : ∀ a b, U a → U b → Symbol_id a = Symbol_id b → a = b.

Lemma closed_weaken (n : Symbol) (known known' : gmap Z value) :
  known ⊆ known' → is_Some (known !! Symbol_id n) →
  is_Some (known' !! Symbol_id n).
Proof. intros Hsub [w Hw]. exists w. by apply (lookup_weaken known). Qed.

Lemma closed_insert (n : Symbol) (v : value) (known : gmap Z value) :
  U n → closed U known →
  (∀ b, b ∈ pre_order n → b ≠ n → is_Some (known !! Symbol_id b)) →
  closed U (<[Symbol_id n := v]> known).
Proof.
  intros Hn Hclosed Hbelow a Ha Hpresent b Hb.
  destruct (decide (Symbol_id n = Symbol_id b)) as [Hnb|Hnb].
  { rewrite Hnb, lookup_insert_eq. eauto. }
  rewrite lookup_insert_ne by done.
  destruct (decide (Symbol_id n = Symbol_id a)) as [Hna|Hna].
  - rewrite <- (U_ids n a Hn Ha Hna) in Hb.
    apply Hbelow; [done|]. by intros ->.
  - rewrite lookup_insert_ne in Hpresent by done.
    by apply (Hclosed a).
Qed.

Lemma evaluate_known_closed (n : Symbol) :
  U n → ∀ known v known',
    closed U known →
    evaluate es n args (Some known) = Ok (v, Some known') →
    closed U known'.
Proof.
  assert (∀ leaf (base : result value) known v known',
            U leaf → pre_order leaf = [leaf] → closed U known →
            Symbol_evaluate (Symbol_id leaf) base (Some known)
            = Ok (v, Some known') →
            closed U known') as Hleaf.
  { intros leaf base known v known' Hn Hpre Hclosed. simpl.
    destruct (known !! Symbol_id leaf) as [w|] eqn:Hlookup.
    - by intros [= <- <-].
    - destruct base as [w|]; [|done]. simpl. intros [= <- <-].
      apply closed_insert; try done.
      intros b Hb. rewrite Hpre in Hb.
      by apply list_elem_of_singleton in Hb as ->. }
  induction n as [w|c e d|lname d|cls d child IH|cls d l IHl r IHr];
    intros Hn known v known' Hclosed.
  1-3: by apply Hleaf.
  - simpl. destruct (known !! _) as [w|] eqn:Hlookup.
    { by intros [= <- <-]. }
    destruct (evaluate es child args (Some known)) as [[cv cout]|] eqn:Hchild;
      [|done].
    destruct (evaluate_known_grows _ _ _ _ Hchild)
      as (known1 & -> & Hsub & Hstored).
    specialize (IH (U_unary _ _ _ Hn) _ _ _ Hclosed Hchild). simpl.
    destruct (_unary_evaluate cls es cv) as [w|]; [|done]. simpl.
    intros [= <- <-]. apply closed_insert; try done.
    intros b Hb Hne. simpl in Hb.
    apply elem_of_cons in Hb as [->|Hb]; [done|].
    apply (IH child); [by apply (U_unary _ _ _ Hn)|eauto|done].
  - simpl. destruct (known !! _) as [w|] eqn:Hlookup.
    { by intros [= <- <-]. }
    destruct (U_binary _ _ _ _ Hn) as [Hl Hr].
    destruct (evaluate es l args (Some known)) as [[lv lout]|] eqn:Hleft;
      [|done].
    destruct (evaluate_known_grows _ _ _ _ Hleft)
      as (known1 & -> & Hsub1 & Hstored1).
    specialize (IHl Hl _ _ _ Hclosed Hleft). simpl.
    destruct (evaluate es r args (Some known1)) as [[rv rout]|] eqn:Hright;
      [|done].
    destruct (evaluate_known_grows _ _ _ _ Hright)
      as (known2 & -> & Hsub2 & Hstored2).
    specialize (IHr Hr _ _ _ IHl Hright). simpl.
    destruct (_binary_evaluate cls es lv rv) as [w|]; [|done]. simpl.
    intros [= <- <-]. apply closed_insert; try done.
    intros b Hb Hne. simpl in Hb.
    apply elem_of_cons in Hb as [->|Hb]; [done|].
    apply elem_of_app in Hb as [Hb|Hb].
    + apply (IHr l); [done| |done].
      apply (closed_weaken l known1); eauto.
    + apply (IHr r); [done|eauto|done].
Qed.

End MemoTheorems.

Section MemoComplete.
Context {backend : NumericBackend} {nodes : NodeAbstraction}.

(** X7.  After a memoized evaluation of a tree has returned, every node of
    the tree has an entry in the map handed back, provided identities
    tell the nodes of the tree apart and the map given was closed (with a
    node it held all the descendants of the node, as the empty map
    does). *)
Theorem evaluate_known_stores_every_node (es : errstate) (args : eval_args)
  (self : Symbol) (known known' : gmap Z value) (v : value) :
  ids_identify self →
  closed (λ a, a ∈ pre_order self) known →
  evaluate es self args (Some known) = Ok (v, Some known') →
  ∀ b, b ∈ pre_order self → is_Some (known' !! Symbol_id b).
Proof.
  intros Hids Hclosed Hevaluate b Hb.
  pose proof (evaluate_known_closed es args (λ a, a ∈ pre_order self)
                (λ c d ch, pre_order_unary c d ch self)
                (λ c d l r, pre_order_binary c d l r self)
                Hids self (pre_order_self self) known v known'
                Hclosed Hevaluate) as Hclosed'.
  destruct (evaluate_known_grows es args self known v _ Hevaluate)
    as (known'' & [= <-] & _ & Hstored).
  apply (Hclosed' self); [apply pre_order_self|eauto|done].
Qed.

End MemoComplete.

Lemma evaluate_known_keeps_entries_witness :
  let es := default_errstate in
  let args := at_time 0 {[ "a" := PyNum 7 ]} in
  let product :=
    BinaryOperator Multiplication no_domains leaf_a (Scalar (PyNum 2)) in
  let self := BinaryOperator Addition no_domains product product in
  let known : gmap Z npvalue := {[ 99 := PyNum 1 ]} in
  ∃ known', evaluate es self args (Some known) = Ok (PyNum 28, Some known')
            ∧ known' !! 99 = Some (PyNum 1)
            ∧ known' !! Symbol_id self = Some (PyNum 28).
Proof.
  intros es args product self known.
  assert (∃ out, evaluate es self args (Some known) = Ok (PyNum 28, out))
    as [out Hevaluate] by (eexists; reflexivity).
  destruct (evaluate_known_keeps_entries es args self known _ _ Hevaluate)
    as (known' & -> & Hkeeps & Hstored).
  exists known'. split; [exact Hevaluate|]. split; [|exact Hstored].
  apply Hkeeps. reflexivity.
Defined.

Lemma evaluate_known_stores_every_node_witness :
  let es := default_errstate in
  let args := at_time 0 {[ "a" := PyNum 7 ]} in
  let product :=
    BinaryOperator Multiplication no_domains leaf_a (Scalar (PyNum 2)) in
  let self := BinaryOperator Addition no_domains product product in
  ids_identify self
  ∧ closed (λ a, a ∈ pre_order self) (∅ : gmap Z npvalue)
  ∧ ∃ known', evaluate es self args (Some ∅) = Ok (PyNum 28, Some known')
              ∧ ∀ b, b ∈ pre_order self → is_Some (known' !! Symbol_id b).
Proof.
  intros es args product self.
  assert (ids_identify self) as Hids.
  { intros a b Ha Hb Hid. simpl in Ha, Hb.
    each_node Ha; each_node Hb;
      first [reflexivity | vm_compute in Hid; discriminate Hid]. }
  assert (closed (λ a, a ∈ pre_order self) (∅ : gmap Z npvalue)) as Hclosed.
  { intros a _ [w Hw]. by rewrite lookup_empty in Hw. }
  split; [exact Hids|]. split; [exact Hclosed|].
  assert (∃ known', evaluate es self args (Some ∅)
                    = Ok (PyNum 28, Some known'))
    as [known' Hevaluate] by (eexists; reflexivity).
  exists known'. split; [exact Hevaluate|].
  exact (evaluate_known_stores_every_node es args self ∅ known' (PyNum 28)
           Hids Hclosed Hevaluate).
Defined.

(** ** Copies of copies *)

Section CopyAgain.
Context {backend : NumericBackend} {nodes : NodeAbstraction}.

Lemma new_copy_gives_constructible (self : Symbol) :
  broadcast_wraps → ∀ out, new_copy self = Ok out → constructible out.
Proof.
  intros Hwraps.
  induction self as [| | |cls d child IH|cls d l IHl r IHr]; intros out; simpl.
  1-3: by intros [= <-].
  - destruct (new_copy child) as [new_child|]; [|done]. simpl.
    intros [= <-]. simpl. by apply IH.
  - destruct (new_copy l) as [new_left|]; [|done].
    destruct (new_copy r) as [new_right|]; [|done]. simpl.
    unfold _binary_new_copy.
    destruct (__init__ cls (Node new_left) (Node new_right)) as [node|]
      eqn:Hinit; [|done].
    simpl. intros [= <-].
    destruct (init_inversion _ _ _ _ Hinit) as (d' & l' & r' & -> & Hf & Hl').
    destruct (format_children Hwraps constructible
                (Node new_left) (Node new_right) l' r') as [Hcl Hcr];
      try done.
    + intros s [= <-]. by apply IHl.
    + intros s [= <-]. by apply IHr.
    + simpl. eauto.
Qed.

(** X8.  Copying is idempotent: a copy that [new_copy] returns is copied
    to itself, whatever the original was, given that the broadcast
    collaborator wraps the child it is handed. *)
Theorem new_copy_idempotent (self out : Symbol) :
  broadcast_wraps →
  new_copy self = Ok out →
  new_copy out = Ok out.
Proof.
  intros Hwraps Hout. apply new_copy_constructible.
  by apply (new_copy_gives_constructible self).
Qed.

End CopyAgain.

Lemma new_copy_idempotent_witness :
  let x := Leaf "x" (on_domain ["a"]) in
  let y := Leaf "y" (with_secondary ["b"] ["a"]) in
  let self := BinaryOperator Addition (on_domain ["b"]) x y in
  let out :=
    BinaryOperator Addition (on_domain ["b"])
      (UnaryOperator PrimaryBroadcast_cls (with_secondary ["b"] ["a"]) x) y in
  broadcast_wraps
  ∧ new_copy self = Ok out
  ∧ new_copy out = Ok out.
Proof.
  intros x y self out.
  assert (broadcast_wraps) as Hwraps.
  { intros child broadcast_domain node [= <-]. eauto. }
  split; [exact Hwraps|]. split; [reflexivity|].
  apply (new_copy_idempotent self out Hwraps). reflexivity.
Defined.

(** ** Sparse operands *)

Section SparseTheorems.
Context {backend : NumericBackend}.

(** X9.  With exactly one sparse operand, the elementwise product does
    not depend on the side the sparse operand is on: [Multiplication] and
    [Inner] evaluate to the same result with the operands exchanged. *)
Theorem hadamard_one_sparse_operand (es : errstate) (left right : value) :
  issparse left ≠ issparse right →
  _binary_evaluate Multiplication es left right
  = _binary_evaluate Multiplication es right left
  ∧ _binary_evaluate Inner es left right
    = _binary_evaluate Inner es right left.
Proof.
  simpl. by destruct (issparse left), (issparse right).
Qed.

(** X10.  Whatever [Multiplication] returns for a sparse operand on
    either side, and whatever [Division] returns for a sparse left
    operand, comes out of [csr_matrix]. *)
Theorem sparse_results_are_csr (es : errstate) (left right v : value) :
  (issparse left || issparse right = true →
   _binary_evaluate Multiplication es left right = Ok v →
   ∃ product, csr_matrix product = Ok v)
  ∧ (issparse left = true →
     _binary_evaluate Division es left right = Ok v →
     ∃ product, csr_matrix product = Ok v).
Proof.
  simpl. split.
  - destruct (issparse left); simpl.
    + intros _. destruct (sparse_multiply es left right); [|done]. eauto.
    + intros ->. destruct (sparse_multiply es right left); [|done]. eauto.
  - intros ->. destruct (py_truediv es (py_int 1) right); [|done]. simpl.
    destruct (sparse_multiply es left _); [|done]. eauto.
Qed.

End SparseTheorems.

Lemma hadamard_one_sparse_operand_witness :
  let es := default_errstate in
  let A : npvalue := SpMatrix "A" in
  let b : npvalue := NdArray "b" in
  issparse b ≠ issparse A
  ∧ _binary_evaluate Multiplication es b A = Ok (Csr (SpMultiply es A b))
  ∧ _binary_evaluate Inner es b A = Ok (SpMultiply es A b).
Proof.
  intros es A b.
  assert (issparse b ≠ issparse A) as Hone by discriminate.
  destruct (hadamard_one_sparse_operand (backend := symbolic_backend)
              es b A Hone) as [Hmul Hinner].
  split; [exact Hone|]. split.
  - etransitivity; [exact Hmul|reflexivity].
  - etransitivity; [exact Hinner|reflexivity].
Defined.

Lemma sparse_results_are_csr_witness :
  let es := default_errstate in
  let A : npvalue := SpMatrix "A" in
  let b : npvalue := NdArray "b" in
  (issparse b || issparse A = true
   ∧ ∃ product, csr_matrix product = _binary_evaluate Multiplication es b A)
  ∧ (issparse A = true
     ∧ ∃ product, csr_matrix product = _binary_evaluate Division es A b).
Proof.
  intros es A b.
  destruct (sparse_results_are_csr (backend := symbolic_backend)
              es b A (Csr (SpMultiply es A b)))
    as [Hmul _].
  destruct (sparse_results_are_csr (backend := symbolic_backend) es A b
              (Csr (SpMultiply es A (Applied u_truediv es (PyNum 1) b))))
    as [_ Hdiv].
  split; (split; [reflexivity|]).
  - destruct (Hmul eq_refl eq_refl) as [product Hproduct].
    exists product. etransitivity; [exact Hproduct|reflexivity].
  - destruct (Hdiv eq_refl eq_refl) as [product Hproduct].
    exists product. etransitivity; [exact Hproduct|reflexivity].
Defined.

(** ** Jacobians and derivatives *)

Section JacobianTheorems.
Context {backend : NumericBackend} {nodes : NodeAbstraction}
  {algebra : NodeAlgebra}.
Variable es : errstate.

(** X11.  In [Power], [Multiplication], [Division], [Inner] and [Modulo]
    the Jacobian of an operand that evaluates to a constant number is
    never used: the Jacobian of the node is the same whatever is passed
    for it. *)
Theorem jacobian_ignores_constant_side (cls : binary_class)
  (left right left_jac right_jac other : Symbol) :
  tests_constant_operands cls = true →
  (evaluates_to_constant_number right = true →
   _binary_jac es cls left right left_jac right_jac
   = _binary_jac es cls left right left_jac other)
  ∧ (evaluates_to_constant_number left = true →
     _binary_jac es cls left right left_jac right_jac
     = _binary_jac es cls left right other right_jac).
Proof.
  intros Hcls. split; intros Hconstant;
    destruct cls; try discriminate Hcls; simpl; rewrite Hconstant.
  1-5: by destruct (evaluates_to_constant_number left).
  all: by destruct (evaluates_to_constant_number right).
Qed.

(** X12.  In the same five classes two operands that evaluate to constant
    numbers give the scalar zero as Jacobian, with no node built from the
    operands; the Heaviside classes give the scalar zero always. *)
Theorem jacobian_of_constants_is_zero (cls : binary_class)
  (left right left_jac right_jac : Symbol) :
  (tests_constant_operands cls = true →
   evaluates_to_constant_number left = true →
   evaluates_to_constant_number right = true →
   _binary_jac es cls left right left_jac right_jac = Ok (Scalar (py_int 0)))
  ∧ (cls = EqualHeaviside ∨ cls = NotEqualHeaviside →
     _binary_jac es cls left right left_jac right_jac
     = Ok (Scalar (py_int 0))).
Proof.
  split.
  - intros Hcls Hl Hr.
    destruct cls; try discriminate Hcls; simpl; by rewrite Hl, Hr.
  - by intros [-> | ->].
Qed.

End JacobianTheorems.

Lemma jacobian_ignores_constant_side_witness :
  let es := default_errstate in
  let x := Leaf "x" no_domains in
  let three := Scalar (PyNum 3) in
  let J := Leaf "J" no_domains in
  let K := Leaf "K" no_domains in
  tests_constant_operands Power = true
  ∧ evaluates_to_constant_number three = true
  ∧ _binary_jac es Power x three J K = _binary_jac es Power x three J J
  ∧ _binary_jac es Modulo three x J K = _binary_jac es Modulo three x K K.
Proof.
  intros es x three J K.
  split; [reflexivity|]. split; [reflexivity|]. split.
  - destruct (jacobian_ignores_constant_side (algebra := small_algebra)
                es Power x three J K J eq_refl) as [Hright _].
    apply Hright. reflexivity.
  - destruct (jacobian_ignores_constant_side (algebra := small_algebra)
                es Modulo three x J K K eq_refl) as [_ Hleft].
    apply Hleft. reflexivity.
Defined.

Lemma jacobian_of_constants_is_zero_witness :
  let es := default_errstate in
  let two := Scalar (PyNum 2) in
  let three := Scalar (PyNum 3) in
  let J := Leaf "J" no_domains in
  (tests_constant_operands Power = true
   ∧ evaluates_to_constant_number two = true
   ∧ evaluates_to_constant_number three = true
   ∧ _binary_jac es Power two three J J = Ok (Scalar (PyNum 0)))
  ∧ _binary_jac es EqualHeaviside J J J J = Ok (Scalar (PyNum 0)).
Proof.
  intros es two three J.
  split.
  - do 3 (split; [reflexivity|]).
    destruct (jacobian_of_constants_is_zero (algebra := small_algebra)
                es Power two three J J) as [Hzero _].
    apply Hzero; reflexivity.
  - destruct (jacobian_of_constants_is_zero (algebra := small_algebra)
                es EqualHeaviside J J J J) as [_ Hzero].
    apply Hzero. by left.
Defined.

Section DerivativeTheorems.
Context {backend : NumericBackend} {nodes : NodeAbstraction}
  {algebra : NodeAlgebra}.
Variable inherited :
  binary_class → Symbol → Symbol → Symbol → result Symbol.

Lemma diff_of_matrix_multiplication (s variable : Symbol) :
  isinstance_MatrixMultiplication s = true →
  diff s variable = Raise NotImplementedError.
Proof. by destruct s as [| | | |[] d l r]. Qed.

(** The first exception wins: an operator returns only if both of its
    operands have returned. *)
Lemma raise_never_returns {A} (e : exn) : ¬ returns (@Raise A e).
Proof. by intros [out Hout]. Qed.

Lemma lift2_returns op a b :
  returns (lift2 op a b) → returns a ∧ returns b.
Proof.
  intros [out Hout]. destruct a as [x|]; [|done].
  destruct b as [y|]; [|done]. split; by eexists.
Qed.

Lemma bind_returns {A B} (m : result A) (k : A → result B) :
  returns (m ≫= k) → returns m.
Proof. intros [out Hout]. destruct m as [x|]; [by eexists|done]. Qed.

Ltac split_returns :=
  repeat match goal with
         | H : returns (Raise _) |- _ => by apply raise_never_returns in H
         | H : returns (lift2 _ _ _) |- _ =>
             apply lift2_returns in H as [? ?]
         | H : returns (_ ≫= _) |- _ => apply bind_returns in H
         end.

(** X13.  A derivative is never returned through a matrix
    multiplication: the [_diff] of every class that defines one fails
    when its left operand is a matrix multiplication, and the [_diff] of
    [Addition], [Subtraction], [Multiplication], [Division], [Inner],
    [Minimum] and [Maximum] also when its right operand is one. *)
Theorem diff_fails_on_matrix_multiplication (cls : binary_class)
  (left right variable : Symbol) :
  defines_diff cls = true →
  (isinstance_MatrixMultiplication left = true →
   ¬ returns (_diff inherited cls left right variable))
  ∧ (differentiates_both cls = true →
     isinstance_MatrixMultiplication right = true →
     ¬ returns (_diff inherited cls left right variable)).
Proof.
  intros Hcls. split.
  - intros Hleft Hreturns.
    pose proof (diff_of_matrix_multiplication left variable Hleft) as Hdiff.
    destruct cls; try discriminate Hcls; unfold _diff in Hreturns;
      rewrite Hdiff in Hreturns; split_returns.
  - intros Hboth Hright Hreturns.
    pose proof (diff_of_matrix_multiplication right variable Hright) as Hdiff.
    destruct cls; try discriminate Hboth; unfold _diff in Hreturns;
      rewrite Hdiff in Hreturns; split_returns.
Qed.

End DerivativeTheorems.

Lemma diff_fails_on_matrix_multiplication_witness :
  let D := Array Matrix_cls (NdArray "D") no_domains in
  let u := Leaf "u" no_domains in
  let Du := BinaryOperator MatrixMultiplication no_domains D u in
  defines_diff Power = true
  ∧ differentiates_both Subtraction = true
  ∧ isinstance_MatrixMultiplication Du = true
  ∧ ¬ returns (_diff no_inherited_diff Power Du u u)
  ∧ ¬ returns (_diff no_inherited_diff Subtraction u Du u).
Proof.
  intros D u Du. do 3 (split; [reflexivity|]). split.
  - destruct (diff_fails_on_matrix_multiplication (algebra := small_algebra)
                no_inherited_diff Power Du u u eq_refl) as [Hleft _].
    apply Hleft. reflexivity.
  - destruct (diff_fails_on_matrix_multiplication (algebra := small_algebra)
                no_inherited_diff Subtraction u Du u eq_refl) as [_ Hright].
    apply Hright; reflexivity.
Defined.

(** ** Edges and printing of whole trees *)

Section TreeTheorems.
Context {backend : NumericBackend} {nodes : NodeAbstraction}.

(** X15.  Binary operators add no evaluation on edges of their own: a
    tree that evaluates on the edges of a dimension holds, among its
    nodes, one that is no binary operator and evaluates on these edges;
    and a tree with an [Inner] at its root never evaluates on edges. *)
Theorem evaluates_on_edges_comes_from_a_node (self : Symbol)
  (dimension : string) :
  (evaluates_on_edges self dimension = true →
   ∃ n, n ∈ pre_order self
        ∧ isinstance_BinaryOperator n = false
        ∧ Symbol_evaluates_on_edges n dimension = true)
  ∧ (∀ d left right,
       self = BinaryOperator Inner d left right →
       evaluates_on_edges self dimension = false).
Proof.
  split; [|by intros d l r ->].
  induction self as [v|c e d|lname d|cls d child IH|cls d l IHl r IHr].
  1-4: intros Hedges; eexists; split; [apply pre_order_self|by split].
  intros Hedges.
  assert (evaluates_on_edges l dimension || evaluates_on_edges r dimension
          = true) as [Hl|Hr]%orb_true_iff.
  { by destruct cls. }
  - destruct (IHl Hl) as (n & Hn & Hnode & Hedge).
    exists n. split; [|done]. simpl. apply elem_of_cons. right.
    apply elem_of_app. by left.
  - destruct (IHr Hr) as (n & Hn & Hnode & Hedge).
    exists n. split; [|done]. simpl. apply elem_of_cons. right.
    apply elem_of_app. by right.
Qed.

Lemma append_assoc (a b c : string) : (a +:+ b) +:+ c = a +:+ (b +:+ c).
Proof.
  induction a as [|x a IH]; [done|].
  change (String x ((a +:+ b) +:+ c) = String x (a +:+ (b +:+ c))).
  by rewrite IH.
Qed.

(** X16.  Printing loses the grouping under an addition: the sum of [a]
    and the sum of [b] and [c] prints as the sum of the sum of [a] and
    [b] and [c], and the sum of [a] and the comparison of [b] with [c]
    prints as the comparison of the sum of [a] and [b] with [c]. *)
Theorem str_loses_grouping (a b c : Symbol) (d1 d2 d3 d4 : Domains) :
  __str__ (BinaryOperator Addition d1 a (BinaryOperator Addition d2 b c))
  = __str__ (BinaryOperator Addition d3 (BinaryOperator Addition d4 a b) c)
  ∧ __str__ (BinaryOperator Addition d1 a
               (BinaryOperator EqualHeaviside d2 b c))
    = __str__ (BinaryOperator EqualHeaviside d3
                 (BinaryOperator Addition d4 a b) c).
Proof.
  assert (∀ s, left_brackets "+" s = false) as Hleft.
  { intros [| | | |cls ? ? ?]; try done; by destruct cls. }
  assert (∀ s, right_brackets "+" s = false) as Hright.
  { intros [| | | |cls ? ? ?]; try done; by destruct cls. }
  split; cbn [__str__ name]; rewrite ?Hleft, ?Hright;
    by rewrite !append_assoc.
Qed.

End TreeTheorems.

Lemma evaluates_on_edges_comes_from_a_node_witness :
  let flux := Leaf "flux" no_domains in
  let sum := BinaryOperator Addition no_domains leaf_a flux in
  evaluates_on_edges (H0 := edge_nodes) sum "x" = true
  ∧ (∃ n, n ∈ pre_order sum
          ∧ isinstance_BinaryOperator n = false
          ∧ Symbol_evaluates_on_edges (NodeAbstraction := edge_nodes) n "x"
            = true)
  ∧ evaluates_on_edges (H0 := edge_nodes)
      (BinaryOperator Inner no_domains sum flux) "x" = false.
Proof.
  intros flux sum. split; [reflexivity|]. split.
  - destruct (evaluates_on_edges_comes_from_a_node (nodes := edge_nodes)
                sum "x") as [Hnode _].
    apply Hnode. reflexivity.
  - destruct (evaluates_on_edges_comes_from_a_node (nodes := edge_nodes)
                (BinaryOperator Inner no_domains sum flux) "x") as [_ Hinner].
    by apply (Hinner no_domains sum flux).
Defined.

(** ** Smoothing and source terms *)

Section SmoothingTheorems.
Context {backend : NumericBackend} {nodes : NodeAbstraction}
  {algebra : NodeAlgebra}.
Variable es : errstate.

(** X17.  [softminus] with coefficient [k] is [softplus] with coefficient
    [-k]; so, for operands that are not both constant, [minimum] under
    the smoothing coefficient [k] builds what [maximum] builds under the
    coefficient [-k]. *)
Theorem softminus_is_softplus_of_opposite (left right : operand)
  (k : value) :
  softminus es left right k = softplus es left right (py_neg k)
  ∧ ∀ st st',
      min_smoothing st = coefficient k →
      max_smoothing st' = coefficient (py_neg k) →
      pybamm_is_constant left && pybamm_is_constant right = false →
      minimum es st left right = maximum es st' left right.
Proof.
  split; [done|].
  intros st st' Hmin Hmax Hconstant. unfold minimum, maximum.
  by rewrite Hmin, Hmax, Hconstant.
Qed.

End SmoothingTheorems.

Lemma softminus_is_softplus_of_opposite_witness :
  let es := default_errstate in
  let five : operand := Number (PyNum 5) in
  min_smoothing (smooth_settings 10) = coefficient (PyNum 10)
  ∧ max_smoothing (smooth_settings (-10)) = coefficient (py_neg (PyNum 10))
  ∧ pybamm_is_constant (Node leaf_a) && pybamm_is_constant five = false
  ∧ minimum es (smooth_settings 10) (Node leaf_a) five
    = maximum es (smooth_settings (-10)) (Node leaf_a) five.
Proof.
  intros es five. do 3 (split; [reflexivity|]).
  destruct (softminus_is_softplus_of_opposite (algebra := small_algebra)
              es (Node leaf_a) five (PyNum 10 : npvalue)) as [_ Hsame].
  apply Hsame; reflexivity.
Defined.

Section SourceTheorems.
Context {backend : NumericBackend} {nodes : NodeAbstraction}
  {algebra : NodeAlgebra}.
Variable Mass : Symbol → result Symbol.
Variable BoundaryMass : Symbol → result Symbol.
Variable broadcast_number : value → string → result Symbol.

(** X18.  [source] works in the current collector only: for two nodes it
    raises [DomainError] unless the domain of each is exactly
    [current collector], an empty domain included, and otherwise it is
    the mass matrix of the right node, the boundary one when [boundary]
    is set, matrix-multiplied with the left node.  Whenever it returns,
    the right operand is a node of that domain. *)
Theorem source_in_current_collector_only (left right : operand)
  (boundary : bool) :
  (returns (source Mass BoundaryMass broadcast_number left right boundary) →
   ∃ r, right = Node r ∧ domain r = ["current collector"]
        ∧ ∀ l, left = Node l → domain l = ["current collector"])
  ∧ (∀ l r,
       domain l ≠ ["current collector"] ∨ domain r ≠ ["current collector"] →
       source Mass BoundaryMass broadcast_number (Node l) (Node r) boundary
       = Raise DomainError)
  ∧ (∀ l r,
       domain l = ["current collector"] → domain r = ["current collector"] →
       source Mass BoundaryMass broadcast_number (Node l) (Node r) boundary
       = (mass ← (if boundary then BoundaryMass r else Mass r);
          __matmul__ mass l)).
Proof.
  split; [|split].
  - intros [out Hout]. unfold source in Hout.
    destruct (match left return result Symbol with
              | Number v => broadcast_number v "current collector"
              | Node s => Ok s
              | PyObject _ => Raise AttributeError
              end) as [l'|] eqn:Hleft; [|done].
    destruct right as [|r|]; try done. simpl in Hout.
    destruct (bool_decide_reflect (domain l' ≠ ["current collector"]))
      as [|Hl']; [done|].
    destruct (bool_decide_reflect (domain r ≠ ["current collector"]))
      as [|Hr]; [done|].
    exists r. split; [done|]. split.
    + by destruct (decide (domain r = ["current collector"])).
    + intros l ->. injection Hleft as ->.
      by destruct (decide (domain l' = ["current collector"])).
  - intros l r Hdomains. unfold source. simpl.
    destruct Hdomains as [Hl|Hr].
    + by rewrite (bool_decide_eq_true_2 _ Hl).
    + rewrite (bool_decide_eq_true_2 _ Hr). by rewrite orb_true_r.
  - intros l r Hl Hr. unfold source. simpl.
    rewrite (bool_decide_eq_false_2 (domain l ≠ _)) by (by intros Hc).
    rewrite (bool_decide_eq_false_2 (domain r ≠ _)) by (by intros Hc).
    simpl. by destruct boundary.
Qed.

End SourceTheorems.

Lemma source_in_current_collector_only_witness :
  let phi := Leaf "phi" (on_domain ["current collector"]) in
  let c := Leaf "c" (on_domain ["negative electrode"]) in
  let one : operand := Number (PyNum 1) in
  let run := source (mass_of "mass") (mass_of "boundary mass") broadcast_to in
  (run one (Node phi) false
   = Ok (BinaryOperator MatrixMultiplication (on_domain ["current collector"])
           (UnaryOperator (OtherUnary "mass") no_domains phi)
           (UnaryOperator PrimaryBroadcast_cls
              (on_domain ["current collector"]) (Scalar (PyNum 1))))
   ∧ ∃ r, Node phi = Node r ∧ domain r = ["current collector"])
  ∧ run (Node phi) (Node leaf_a) true = Raise DomainError
  ∧ run (Node c) (Node phi) true = Raise DomainError
  ∧ run (Node phi) (Node phi) true
    = Ok (BinaryOperator MatrixMultiplication (on_domain ["current collector"])
            (UnaryOperator (OtherUnary "boundary mass") no_domains phi) phi).
Proof.
  intros phi c one run.
  destruct (source_in_current_collector_only (backend := symbolic_backend)
              (algebra := small_algebra)
              (mass_of "mass") (mass_of "boundary mass") broadcast_to
              one (Node phi) false)
    as (Hreturns & _ & _).
  destruct (source_in_current_collector_only (backend := symbolic_backend)
              (algebra := small_algebra)
              (mass_of "mass") (mass_of "boundary mass") broadcast_to
              (Node phi) (Node phi) true)
    as (_ & Hrefused & Haccepted).
  split; [split; [reflexivity|]|].
  - destruct Hreturns as (r & Hr & Hdomain & _);
      [eexists; reflexivity|eauto].
  - split; [|split].
    + apply Hrefused. right. discriminate.
    + apply Hrefused. left. discriminate.
    + etransitivity; [by apply Haccepted|reflexivity].
Defined.
